(** * lib/hooks.js: the hook registry and dispatcher

    A shallow embedding of [lib/hooks.js].  The two JavaScript objects that
    the module uses as dictionaries ([hookTypes] and [options.hooks]) are
    plain objects: a finite map holds their own properties, and a read
    [object[name]] that finds no own property goes on to the members of
    [Object.prototype].  Arrays are lists; the methods mixed into a host by
    [applyTo] are functions in a state-and-exception monad whose state is
    the receiver [this]. *)

From stdpp Require Import gmap strings list fin_maps.

Local Open Scope string_scope.
Local Open Scope list_scope.

(** ** Values thrown by the module and by hooks *)

Inductive exn :=
  | Error (message : string)   (* [new Error(message)] *)
  | TypeError                  (* raised by the engine: property access on
                                  [undefined], call of a non-function *)
  | Other (tag : nat).         (* any other thrown or rejected value *)

Inductive result (A : Type) :=
  | Ok (a : A)
  | Throw (e : exn).
Arguments Ok {A} a.
Arguments Throw {A} e.

(** ** A state monad with exceptions; the state survives a throw *)

Module StateExn.

Definition M (S A : Type) : Type := S -> result A * S.

Definition ret {S A} (a : A) : M S A := fun s => (Ok a, s).

Definition throw {S A} (e : exn) : M S A := fun s => (Throw e, s).

Definition bind {S A B} (c : M S A) (k : A -> M S B) : M S B :=
  fun s =>
    match c s with
    | (Ok a, s') => k a s'
    | (Throw e, s') => (Throw e, s')
    end.

Definition get {S} : M S S := fun s => (Ok s, s).

Definition modify {S} (f : S -> S) : M S unit := fun s => (Ok tt, f s).

Definition lift {S A} (r : result A) : M S A := fun s => (r, s).

(** [array.forEach(body)] and [for (const x of array) body]. *)
Fixpoint forEach {S A} (l : list A) (body : A -> M S unit) : M S unit :=
  match l with
  | [] => ret tt
  | x :: l' => bind (body x) (fun _ => forEach l' body)
  end.

End StateExn.
Import StateExn.

Declare Scope hooks_scope.
Delimit Scope hooks_scope with hooks.
Notation "x <- c ;; k" := (bind c (fun x => k))
  (at level 100, c at next level, right associativity) : hooks_scope.
Notation "c ;;; k" := (bind c (fun _ => k))
  (at level 100, right associativity) : hooks_scope.
Local Open Scope hooks_scope.

(** ** The lifecycle catalog [hookTypes] *)

Record descriptor := Descriptor {
  params : nat;
  sync : bool;                     (* absent in the literal = falsy *)
  noModel : bool;                  (* absent in the literal = falsy *)
  proxies : option (list string)   (* absent in the literal = [None] *)
}.

Definition hookTypes_literal : list (string * descriptor) :=
  [ ("beforeValidate", Descriptor 2 false false None);
    ("afterValidate", Descriptor 2 false false None);
    ("validationFailed", Descriptor 3 false false None);
    ("beforeCreate", Descriptor 2 false false None);
    ("afterCreate", Descriptor 2 false false None);
    ("beforeDestroy", Descriptor 2 false false None);
    ("afterDestroy", Descriptor 2 false false None);
    ("beforeRestore", Descriptor 2 false false None);
    ("afterRestore", Descriptor 2 false false None);
    ("beforeUpdate", Descriptor 2 false false None);
    ("afterUpdate", Descriptor 2 false false None);
    ("beforeSave", Descriptor 2 false false (Some ["beforeUpdate"; "beforeCreate"]));
    ("afterSave", Descriptor 2 false false (Some ["afterUpdate"; "afterCreate"]));
    ("beforeUpsert", Descriptor 2 false false None);
    ("afterUpsert", Descriptor 2 false false None);
    ("beforeBulkCreate", Descriptor 2 false false None);
    ("afterBulkCreate", Descriptor 2 false false None);
    ("beforeBulkDestroy", Descriptor 1 false false None);
    ("afterBulkDestroy", Descriptor 1 false false None);
    ("beforeBulkRestore", Descriptor 1 false false None);
    ("afterBulkRestore", Descriptor 1 false false None);
    ("beforeBulkUpdate", Descriptor 1 false false None);
    ("afterBulkUpdate", Descriptor 1 false false None);
    ("beforeFind", Descriptor 1 false false None);
    ("beforeFindAfterExpandIncludeAll", Descriptor 1 false false None);
    ("beforeFindAfterOptions", Descriptor 1 false false None);
    ("afterFind", Descriptor 2 false false None);
    ("beforeCount", Descriptor 1 false false None);
    ("beforeDefine", Descriptor 2 true true None);
    ("afterDefine", Descriptor 1 true true None);
    ("beforeInit", Descriptor 2 true true None);
    ("afterInit", Descriptor 1 true true None);
    ("beforeAssociate", Descriptor 2 true false None);
    ("afterAssociate", Descriptor 2 true false None);
    ("beforeConnect", Descriptor 1 false true None);
    ("afterConnect", Descriptor 2 false true None);
    ("beforeSync", Descriptor 1 false false None);
    ("afterSync", Descriptor 1 false false None);
    ("beforeBulkSync", Descriptor 1 false true None);
    ("afterBulkSync", Descriptor 1 false true None) ].

Definition hookTypes : gmap string descriptor := list_to_map hookTypes_literal.

(** ** Hook entries, hook stores and hosts *)

(** A function value is known by its reference; [===] on functions is
    equality of references. *)
Definition fn_ref := nat.

(** What [addHook] pushes: the function itself, or [{ name, fn }]. *)
Inductive entry :=
  | Bare (fn : fn_ref)
  | Named (name : string) (fn : fn_ref).

Global Instance entry_eq_dec : EqDecision entry.
Proof. solve_decision. Defined.

(** [typeof hook === 'object'] and [typeof hook === 'function']. *)
Definition is_object (hook : entry) : bool :=
  match hook with Named _ _ => true | Bare _ => false end.
Definition is_function (hook : entry) : bool :=
  match hook with Bare _ => true | Named _ _ => false end.

(** [hook.fn] after the unwrapping [if (typeof hook === 'object') hook = hook.fn]. *)
Definition unwrap (hook : entry) : fn_ref :=
  match hook with
  | Named _ fn => fn
  | Bare fn => fn
  end.

(** The host: [options.hooks] may not have been set yet ([None] is
    [undefined]); [sequelize] is the optional parent. *)
#[warnings="-register-all"] Inductive hooked := Hooked {
  options_hooks : option (gmap string (list entry));
  sequelize : option hooked
}.

Definition set_options_hooks (st : gmap string (list entry)) (this : hooked) : hooked :=
  Hooked (Some st) (sequelize this).

(** [this.sequelize] in a condition. *)
Definition has_sequelize (this : hooked) : bool :=
  match sequelize this with Some _ => true | None => false end.

(** ** Plain objects and [Object.prototype] *)

(** What a plain object inherits: the built-in functions, known by their
    reference and their [length], and under [__proto__] the object
    [Object.prototype] itself. *)
Inductive member :=
  | BuiltinFunction (fn : fn_ref) (length : nat)
  | PrototypeObject.

Global Instance member_eq_dec : EqDecision member.
Proof. solve_decision. Defined.

(** The members of [Object.prototype] (Node.js). *)
Definition Object_prototype_literal : list (string * member) :=
  [ ("constructor", BuiltinFunction 1000 1);
    ("__defineGetter__", BuiltinFunction 1001 2);
    ("__defineSetter__", BuiltinFunction 1002 2);
    ("hasOwnProperty", BuiltinFunction 1003 1);
    ("__lookupGetter__", BuiltinFunction 1004 1);
    ("__lookupSetter__", BuiltinFunction 1005 1);
    ("isPrototypeOf", BuiltinFunction 1006 1);
    ("propertyIsEnumerable", BuiltinFunction 1007 1);
    ("toString", BuiltinFunction 1008 0);
    ("valueOf", BuiltinFunction 1009 0);
    ("__proto__", PrototypeObject);
    ("toLocaleString", BuiltinFunction 1010 0) ].

Definition Object_prototype : gmap string member :=
  list_to_map Object_prototype_literal.

(** [hookTypes[hookType]]: a descriptor of the literal, an inherited
    member, or [undefined]. *)
Inductive catalog_value :=
  | OwnDescriptor (d : descriptor)
  | InheritedMember (m : member).

Definition hookTypes_at (hookType : string) : option catalog_value :=
  match hookTypes !! hookType with
  | Some d => Some (OwnDescriptor d)
  | None => InheritedMember <$> Object_prototype !! hookType
  end.

(** [store[name]] for a plain object [store] whose own properties are
    arrays of entries: the own array, an inherited member, or [undefined]. *)
Inductive found :=
  | Array (hooks : list entry)
  | Inherited (m : member).

Definition store_at (st : gmap string (list entry)) (name : string)
  : option found :=
  match st !! name with
  | Some hooks => Some (Array hooks)
  | None => Inherited <$> Object_prototype !! name
  end.

(** ** [getProxiedHooks] and [getHooks] *)

(** [hookTypes[hookType].proxies ? hookTypes[hookType].proxies.concat(hookType) : [hookType]];
    reading [.proxies] of [undefined] throws, and an inherited member has
    no [proxies]. *)
Definition getProxiedHooks (hookType : string) : result (list string) :=
  match hookTypes_at hookType with
  | None => Throw TypeError
  | Some (OwnDescriptor d) =>
      match proxies d with
      | Some ps => Ok (ps ++ [hookType])
      | None => Ok [hookType]
      end
  | Some (InheritedMember _) => Ok [hookType]
  end.

(** [(hooked.options.hooks || {})[hookType] || []]; arrays, functions and
    objects are truthy. *)
Definition getHooks (hooked : hooked) (hookType : string) : found :=
  match store_at (default ∅ (options_hooks hooked)) hookType with
  | Some hooks => hooks
  | None => Array []
  end.

(** ** The registration API *)

(** [this.options.hooks[type] = hooks]; assigning into [undefined] throws. *)
Definition assign_hooks (type : string) (hooks : list entry) : M hooked unit :=
  fun this =>
    match options_hooks this with
    | None => (Throw TypeError, this)
    | Some st => (Ok tt, set_options_hooks (<[type := hooks]> st) this)
    end.

(** [hookTypes[hookType] && hookTypes[hookType].noModel && this.sequelize];
    an inherited member has no [noModel]. *)
Definition restricted_here (hookType : string) (this : hooked) : bool :=
  match hookTypes_at hookType with
  | Some (OwnDescriptor d) => noModel d && has_sequelize this
  | Some (InheritedMember _) => false
  | None => false
  end.

Definition restriction_message (hookType : string) : string :=
  hookType +:+ " is only applicable on a sequelize instance or static".

(** [name ? { name, fn } : fn]; the empty string is falsy, and [None] is
    the [null] left by the two-argument call [addHook(hookType, fn)]. *)
Definition new_entry (name : option string) (fn : fn_ref) : entry :=
  match name with
  | Some n => if decide (n = "") then Bare fn else Named n fn
  | None => Bare fn
  end.

(** [hooks.push(entry)]: only an array has [push]. *)
Definition push (hooks : found) (e : entry) : result (list entry) :=
  match hooks with
  | Array l => Ok (l ++ [e])
  | Inherited _ => Throw TypeError
  end.

Definition addHook (hookType : string) (name : option string) (fn : fn_ref)
  : M hooked unit :=
  this <- get ;;
  if restricted_here hookType this then
    throw (Error (restriction_message hookType))
  else
    types <- lift (getProxiedHooks hookType) ;;
    forEach types (fun type =>
      this <- get ;;
      hooks <- lift (push (getHooks this type) (new_entry name fn)) ;;
      assign_hooks type hooks).

(** [this.options.hooks[hookType] && !!this.options.hooks[hookType].length]:
    [undefined] ([None]) when nothing is found, a boolean otherwise; the
    [length] of [Object.prototype] is [undefined]. *)
Definition hasHook (hookType : string) : M hooked (option bool) :=
  fun this =>
    match options_hooks this with
    | None => (Throw TypeError, this)
    | Some st =>
        match store_at st hookType with
        | None => (Ok None, this)
        | Some (Array hooks) =>
            (Ok (Some (negb (Nat.eqb (length hooks) 0))), this)
        | Some (Inherited (BuiltinFunction _ n)) =>
            (Ok (Some (negb (Nat.eqb n 0))), this)
        | Some (Inherited PrototypeObject) => (Ok (Some false), this)
        end
    end.

Definition truthy (v : option bool) : bool := default false v.

(** The second argument of [removeHook]: a name or a function reference. *)
Inductive remove_key :=
  | ByName (name : string)
  | ByReference (fn : fn_ref).

Definition isReference (name : remove_key) : bool :=
  match name with ByReference _ => true | ByName _ => false end.

(** The callback given to [filter] in [removeHook]. *)
Definition keep (name : remove_key) (hook : entry) : bool :=
  if isReference name && is_function hook then
    match name, hook with
    | ByReference f, Bare g => negb (Nat.eqb g f)
    | _, _ => true
    end
  else if negb (isReference name) && is_object hook then
    match name, hook with
    | ByName n, Named m _ => negb (String.eqb m n)
    | _, _ => true
    end
  else true.

(** [this.options.hooks[type] = this.options.hooks[type].filter(...)];
    only an array has [filter]. *)
Definition filter_hooks (name : remove_key) (type : string) : M hooked unit :=
  fun this =>
    match options_hooks this with
    | None => (Throw TypeError, this)
    | Some st =>
        match store_at st type with
        | Some (Array hooks) =>
            (Ok tt, set_options_hooks (<[type := List.filter (keep name) hooks]> st) this)
        | Some (Inherited _) => (Throw TypeError, this)
        | None => (Throw TypeError, this)
        end
    end.

Definition removeHook (hookType : string) (name : remove_key) : M hooked unit :=
  has <- hasHook hookType ;;
  if negb (truthy has) then ret tt
  else
    types <- lift (getProxiedHooks hookType) ;;
    forEach types (filter_hooks name).

(** The argument of [_setupHooks]: an object whose own properties, in
    enumeration order, are a single function or an array of functions. *)
Inductive hooks_definition :=
  | OneFn (fn : fn_ref)
  | ManyFns (fns : list fn_ref).

(** [if (!Array.isArray(hooksArray)) hooksArray = [hooksArray]] *)
Definition as_array (v : hooks_definition) : list fn_ref :=
  match v with OneFn f => [f] | ManyFns fs => fs end.

(** [_setupHooks(hooks = {})]: [None] is the omitted argument. *)
Definition _setupHooks (hooks : option (list (string * hooks_definition)))
  : M hooked unit :=
  modify (set_options_hooks ∅) ;;;
  forEach (default [] hooks) (fun '(hookName, hooksArray) =>
    forEach (as_array hooksArray) (fun hookFn => addHook hookName None hookFn)).

(** ** The dispatcher *)

(** What [runHooks] hands back when it does not throw: [undefined] on the
    synchronous path, a promise otherwise.  A promise is known by how it
    settles. *)
Inductive promise (A : Type) :=
  | Fulfilled (a : A)
  | Rejected (e : exn).
Arguments Fulfilled {A} a.
Arguments Rejected {A} e.

Inductive returned :=
  | Undefined
  | Promise (p : promise unit).

(** Modelled from the spec: [.return()] of the promises of [./promise]
    (Bluebird), which is not part of [lib/hooks.js]: the fulfilment value is
    replaced by [undefined], a rejection is passed on. *)
Definition Promise_return {A} (p : promise A) : promise unit :=
  match p with
  | Fulfilled _ => Fulfilled tt
  | Rejected e => Rejected e
  end.

(** The first argument of [runHooks]. *)
Inductive hooks_arg :=
  | NoHooks                       (* omitted, [undefined] *)
  | HookType (hookType : string)
  | HookList (hooks : list entry)
  | HookOne (hook : entry).

(** [!hooks]: [undefined] and the empty string are falsy; arrays, objects
    and functions are truthy. *)
Definition falsy (hooks : hooks_arg) : bool :=
  match hooks with
  | NoHooks => true
  | HookType s => bool_decide (s = "")
  | HookList _ | HookOne _ => false
  end.

(** The variable [hookType], assigned only under [typeof hooks === 'string']. *)
Definition hookType_of (hooks : hooks_arg) : option string :=
  match hooks with
  | HookType s => Some s
  | _ => None
  end.

(** An element of the array that is run: a hook entry, or the object
    [Object.prototype] when the name [__proto__] has brought it in. *)
Inductive hook_value :=
  | Entry (hook : entry)
  | Object_prototype_object.

(** An inherited member as an element of an array: a built-in function is a
    bare function. *)
Definition as_element (m : member) : hook_value :=
  match m with
  | BuiltinFunction fn _ => Entry (Bare fn)
  | PrototypeObject => Object_prototype_object
  end.

(** [if (!Array.isArray(hooks)) hooks = [hooks]] *)
Definition wrapped (hooks : found) : list hook_value :=
  match hooks with
  | Array l => map Entry l
  | Inherited m => [as_element m]
  end.

(** [hooks.concat(more)]: only an array has [concat]; an argument that is
    not an array is appended as one element. *)
Definition concat (hooks more : found) : result (list hook_value) :=
  match hooks with
  | Array l => Ok (map Entry l ++ wrapped more)
  | Inherited _ => Throw TypeError
  end.

(** Lines 90-101: the array that is run. *)
Definition resolve (this : hooked) (hooks : hooks_arg)
  : result (list hook_value) :=
  match hooks with
  | HookType hookType =>
      let hooks := getHooks this hookType in
      match sequelize this with
      | Some parent => concat hooks (getHooks parent hookType)
      | None => Ok (wrapped hooks)
      end
  | HookList l => Ok (map Entry l)
  | HookOne hook => Ok [Entry hook]
  | NoHooks => Ok []              (* not reached: [runHooks] has thrown *)
  end.

(** [hookTypes[hookType] && hookTypes[hookType].sync]; an inherited member
    has no [sync]. *)
Definition is_sync (hookType : option string) : bool :=
  match hookType with
  | Some t =>
      match hookTypes_at t with
      | Some (OwnDescriptor d) => sync d
      | Some (InheritedMember _) => false
      | None => false
      end
  | None => false
  end.

Section Dispatcher.

(** Hooks receive and return values of type [Value] and act on the rest of
    the program state, [W].  [behaviour fn this args] is the call
    [fn.apply(this, args)]: it returns a value or throws.  [await v] is what
    the promise machinery observes of a returned value: a plain value
    fulfils with itself, a promise fulfils or rejects, possibly after more
    work on [W].  Hooks do not register or remove hooks while they run. *)
Context {Value W : Type}.
Variable behaviour : fn_ref -> hooked -> list Value -> W -> result Value * W.
Variable await : Value -> W -> result Value * W.

(** The state of a dispatch: the program state and the log of calls made. *)
Record world := World {
  heap : W;
  calls : list (fn_ref * hooked * list Value)
}.

(** [hook.apply(this, hookArgs)] *)
Definition apply (hook : fn_ref) (this : hooked) (hookArgs : list Value)
  : M world Value :=
  fun w =>
    let (r, u) := behaviour hook this hookArgs (heap w) in
    (r, World u (calls w ++ [(hook, this, hookArgs)])).

(** [if (typeof hook === 'object') hook = hook.fn; hook.apply(this, hookArgs)]:
    [Object.prototype] has no [fn], and [undefined] has no [apply]. *)
Definition call_hook (hook : hook_value) (this : hooked) (hookArgs : list Value)
  : M world Value :=
  match hook with
  | Entry hook =>
      let hook := unwrap hook in
      apply hook this hookArgs
  | Object_prototype_object => throw TypeError
  end.

(** What the promise machinery does with the value an iterator returned. *)
Definition awaited (v : Value) : M world Value :=
  fun w =>
    let (r, u) := await v (heap w) in
    (r, World u (calls w)).

(** Modelled from the spec: [Promise.each] of [./promise] (Bluebird), which
    is not part of [lib/hooks.js].  The iterator is called on the items in
    order; the value it returns is awaited before the next item is visited;
    the first throw or rejection rejects the whole promise and no further
    item is visited; otherwise the promise fulfils with the input array. *)
Fixpoint each_from (iterator : hook_value -> M world Value)
    (rest : list hook_value) : world -> option exn * world :=
  fun w =>
    match rest with
    | [] => (None, w)
    | item :: rest' =>
        match (v <- iterator item ;; awaited v) w with
        | (Ok _, w') => each_from iterator rest' w'
        | (Throw e, w') => (Some e, w')
        end
    end.

Definition Promise_each (input : list hook_value)
    (iterator : hook_value -> M world Value)
  : M world (promise (list hook_value)) :=
  fun w =>
    match each_from iterator input w with
    | (None, w') => (Ok (Fulfilled input), w')
    | (Some e, w') => (Ok (Rejected e), w')
    end.

(** Lines 103-124, on the resolved array.  The calls to [debug] only write
    to the logger and are left out. *)
Definition run_resolved (sync_mode : bool) (this : hooked)
    (hooks : list hook_value) (hookArgs : list Value) : M world returned :=
  if sync_mode then
    forEach hooks (fun hook => call_hook hook this hookArgs ;;; ret tt) ;;;
    ret Undefined
  else
    p <- Promise_each hooks (fun hook => call_hook hook this hookArgs) ;;
    ret (Promise (Promise_return p)).

Definition runHooks (hooks : hooks_arg) (hookArgs : list Value) (this : hooked)
  : M world returned :=
  if falsy hooks then throw (Error "runHooks requires at least 1 argument")
  else
    let hookType := hookType_of hooks in
    hooks <- lift (resolve this hooks) ;;
    run_resolved (is_sync hookType) this hooks hookArgs.

End Dispatcher.

(** * Notions used in the properties *)

(** The proxies of a catalogued type; a type without proxies, or a name
    outside the catalog, has none. *)
Definition aliasOf (hookType : string) : list string :=
  match hookTypes !! hookType with
  | Some d => default [] (proxies d)
  | None => []
  end.

(** No descriptor lists a type twice or lists the type itself. *)
Definition proxied_NoDup (kv : string * descriptor) : Prop :=
  NoDup (default [] (proxies kv.2) ++ [kv.1]).

Global Instance proxied_NoDup_dec kv : Decision (proxied_NoDup kv).
Proof. unfold proxied_NoDup. apply _. Defined.

(** Only types without the [noModel] flag have proxies. *)
Definition proxies_unrestricted (kv : string * descriptor) : Prop :=
  is_Some (proxies kv.2) → noModel kv.2 = false.

Global Instance proxies_unrestricted_dec kv : Decision (proxies_unrestricted kv).
Proof. unfold proxies_unrestricted. apply _. Defined.

(** No type of the catalog is named after a member of [Object.prototype]. *)
Definition catalogued_plain (kv : string * descriptor) : Prop :=
  Object_prototype !! kv.1 = None.

Global Instance catalogued_plain_dec kv : Decision (catalogued_plain kv).
Proof. unfold catalogued_plain. apply _. Defined.

(** The list kept for a type; a missing list reads as empty. *)
Definition stored (st : gmap string (list entry)) (X : string) : list entry :=
  default [] (st !! X).

(** The list the store of a host holds for a type, and the list the store
    of its parent holds; no store, no list and no parent read as empty. *)
Definition own_list (this : hooked) (X : string) : list entry :=
  stored (default ∅ (options_hooks this)) X.



(** Reading the name from the store gives an array: the store has a list
    for it, or nothing is inherited under it. *)
Definition reads_array (st : gmap string (list entry)) (X : string) : Prop :=
  is_Some (st !! X) ∨ Object_prototype !! X = None.

(** What [hasHook] returns on a store. *)
Definition hasHook_of (st : gmap string (list entry)) (X : string) : option bool :=
  match st !! X with
  | Some hooks => Some (negb (Nat.eqb (length hooks) 0))
  | None =>
      match Object_prototype !! X with
      | Some (BuiltinFunction _ n) => Some (negb (Nat.eqb n 0))
      | Some PrototypeObject => Some false
      | None => None
      end
  end.

(** The loop of [addHook], as one function on stores. *)
Fixpoint push_each (e : entry) (types : list string)
    (st : gmap string (list entry)) : gmap string (list entry) :=
  match types with
  | [] => st
  | type :: types' => push_each e types' (<[type := stored st type ++ [e]]> st)
  end.

(** The entries a removal key designates: a name designates the named
    entries of that name, a function the bare entries that are that
    function. *)
Definition matches (key : remove_key) (e : entry) : bool :=
  match key, e with
  | ByName n, Named m _ => String.eqb m n
  | ByReference f, Bare g => Nat.eqb g f
  | _, _ => false
  end.

(** The loop of [removeHook], on the types whose list exists. *)
Fixpoint filter_each (key : remove_key) (types : list string)
    (st : gmap string (list entry)) : gmap string (list entry) :=
  match types with
  | [] => st
  | type :: types' =>
      filter_each key types' (alter (List.filter (keep key)) type st)
  end.


(** The loop of [_setupHooks], started on any store. *)
Definition setup_loop (hooks : list (string * hooks_definition)) : M hooked unit :=
  forEach hooks (fun '(hookName, hooksArray) =>
    forEach (as_array hooksArray) (fun hookFn => addHook hookName None hookFn)).

Section Runs.

Context {Value W : Type}.
Variable behaviour : fn_ref -> hooked -> list Value -> W -> result Value * W.
Variable await : Value -> W -> result Value * W.
Variable this : hooked.
Variable hookArgs : list Value.




(** What [runHooks] hands back after the last hook, and at a failure. *)
Definition completed (sync_mode : bool) : result returned :=
  if sync_mode then Ok Undefined else Ok (Promise (Fulfilled tt)).

Definition failed (sync_mode : bool) (e : exn) : result returned :=
  if sync_mode then Throw e else Ok (Promise (Rejected e)).

(** The same step for any element of the array that is run. *)
Definition element_step (sync_mode : bool) (hook : hook_value)
  : M (@world Value W) unit :=
  v <- call_hook behaviour hook this hookArgs ;;
  if sync_mode then ret tt else (awaited await v ;;; ret tt).

(** The calls a run of a whole array makes: one per entry; the object
    [Object.prototype] is not called. *)
Definition calls_of (hooks : list hook_value)
  : list (fn_ref * hooked * list Value) :=
  flat_map (fun hook =>
    match hook with
    | Entry hook => [(unwrap hook, this, hookArgs)]
    | Object_prototype_object => []
    end) hooks.

(** How one element of the array settles for a caller that waits for it,
    told from what the function does when called and from what its value
    does when awaited: it fails when the call throws or when the value
    rejects, and succeeds when the value fulfils.  [Object.prototype] is no
    hook and fails with a [TypeError]. *)
Inductive settles : hook_value -> W -> result unit -> W -> Prop :=
  | settles_throws hook u e u' :
      behaviour (unwrap hook) this hookArgs u = (Throw e, u') ->
      settles (Entry hook) u (Throw e) u'
  | settles_rejects hook u v u1 e u' :
      behaviour (unwrap hook) this hookArgs u = (Ok v, u1) ->
      await v u1 = (Throw e, u') ->
      settles (Entry hook) u (Throw e) u'
  | settles_fulfils hook u v u1 v' u' :
      behaviour (unwrap hook) this hookArgs u = (Ok v, u1) ->
      await v u1 = (Ok v', u') ->
      settles (Entry hook) u (Ok tt) u'
  | settles_no_hook u :
      settles Object_prototype_object u (Throw TypeError) u.

(** Every element of the array succeeds, one after the other. *)
Inductive all_fulfil : list hook_value -> W -> W -> Prop :=
  | all_fulfil_nil u : all_fulfil [] u u
  | all_fulfil_cons hook hooks u u1 u2 :
      settles hook u (Ok tt) u1 ->
      all_fulfil hooks u1 u2 ->
      all_fulfil (hook :: hooks) u u2.

End Runs.

(** ** Notions used in the further properties *)

(** The removal key that designates the entry pushed by
    [addHook(hookType, name, fn)]: the name when one was kept, the function
    otherwise. *)
Definition key_of (name : option string) (fn : fn_ref) : remove_key :=
  match name with
  | Some n => if decide (n = "") then ByReference fn else ByName n
  | None => ByReference fn
  end.

(** Every proxy a descriptor lists is itself in the catalog, where it has
    no proxies of its own. *)
Definition proxies_catalogued (kv : string * descriptor) : Prop :=
  Forall (fun X => ∃ d, hookTypes !! X = Some d ∧ proxies d = None)
         (default [] (proxies kv.2)).

Global Instance proxies_catalogued_dec kv : Decision (proxies_catalogued kv).
Proof.
  unfold proxies_catalogued. apply Forall_dec. intros X.
  destruct (hookTypes !! X) as [d|].
  - destruct (proxies d) as [ps|] eqn:E.
    + right. intros (d' & Hd & Hp). congruence.
    + left. eauto.
  - right. intros (d' & Hd & Hp). congruence.
Defined.

(** The store is set, holds lists for catalogued types only, and holds a
    list for every proxy of a type it holds a list for. *)
Definition store_closed (this : hooked) : Prop :=
  ∃ st, options_hooks this = Some st ∧
    ∀ T, is_Some (st !! T) →
      is_Some (hookTypes !! T) ∧ ∀ X, X ∈ aliasOf T → is_Some (st !! X).

(** The hosts the API builds: set up by [_setupHooks], then changed by
    [addHook] and [removeHook] only, whatever these calls return. *)
Inductive api_built : hooked -> Prop :=
  | api_setupHooks hooks this :
      api_built (_setupHooks hooks this).2
  | api_addHook hookType name fn this :
      api_built this -> api_built (addHook hookType name fn this).2
  | api_removeHook hookType name this :
      api_built this -> api_built (removeHook hookType name this).2.

(** ** Hosts and hooks used as examples *)

(** A registry and a model defined on it, both with empty stores. *)
Definition demo_sequelize : hooked := Hooked (Some ∅) None.
Definition demo_model : hooked := Hooked (Some ∅) (Some demo_sequelize).

(** Hooks whose program state is a counter of calls: function 2 throws,
    function 5 returns a promise that rejects, the others return their own
    reference. *)
Definition demo_behaviour (fn : fn_ref) (_ : hooked) (_ : list nat) (n : nat)
  : result nat * nat :=
  if Nat.eqb fn 2 then (Throw (Other 7), S n) else (Ok fn, S n).

Definition demo_args : list nat := [10; 20].

Definition demo_await (v : nat) (n : nat) : result nat * nat :=
  if Nat.eqb v 5 then (Throw (Other 9), n) else (Ok v, n).


(** * Properties *)

(** ** The catalog *)

Lemma hookTypes_lookup T d :
  hookTypes !! T = Some d → (T, d) ∈ hookTypes_literal.
Proof.
  unfold hookTypes. intros H.
  exact (elem_of_list_to_map_2 (M := gmap string) hookTypes_literal T d H).
Qed.

Lemma hookTypes_proxies_NoDup : Forall proxied_NoDup hookTypes_literal.
Proof. apply (bool_decide_unpack _). vm_compute. exact I. Qed.

Lemma hookTypes_proxies_unrestricted :
  Forall proxies_unrestricted hookTypes_literal.
Proof. apply (bool_decide_unpack _). vm_compute. exact I. Qed.

Lemma hookTypes_proxies_catalogued : Forall proxies_catalogued hookTypes_literal.
Proof. apply (bool_decide_unpack _). vm_compute. exact I. Qed.

Lemma hookTypes_plain : Forall catalogued_plain hookTypes_literal.
Proof. apply (bool_decide_unpack _). vm_compute. exact I. Qed.



Local Opaque hookTypes Object_prototype.

Lemma catalogued_not_inherited T :
  is_Some (hookTypes !! T) → Object_prototype !! T = None.
Proof.
  intros [d Hd]. pose proof hookTypes_plain as HF.
  rewrite Forall_forall in HF. exact (HF _ (hookTypes_lookup _ _ Hd)).
Qed.

Lemma aliasOf_catalogued T X :
  X ∈ aliasOf T → is_Some (hookTypes !! X) ∧ aliasOf X = [].
Proof.
  unfold aliasOf at 1. destruct (hookTypes !! T) as [d|] eqn:Hd.
  2:{ intros H. apply elem_of_nil in H. destruct H. }
  intros HX. pose proof hookTypes_proxies_catalogued as HF.
  rewrite Forall_forall in HF. specialize (HF _ (hookTypes_lookup _ _ Hd)).
  unfold proxies_catalogued in HF. cbn [snd] in HF. rewrite Forall_forall in HF.
  destruct (HF _ HX) as (dx & Hdx & Hpx). split; [eauto|].
  unfold aliasOf. by rewrite Hdx, Hpx.
Qed.


Lemma aliasOf_not_catalogued T : hookTypes !! T = None → aliasOf T = [].
Proof. intros H. unfold aliasOf. by rewrite H. Qed.

Lemma hookTypes_at_own T d :
  hookTypes !! T = Some d → hookTypes_at T = Some (OwnDescriptor d).
Proof. intros H. unfold hookTypes_at. by rewrite H. Qed.

Lemma hookTypes_at_not_own T :
  hookTypes !! T = None →
  hookTypes_at T = InheritedMember <$> Object_prototype !! T.
Proof. intros H. unfold hookTypes_at. by rewrite H. Qed.

Lemma getProxiedHooks_known T d :
  hookTypes !! T = Some d → getProxiedHooks T = Ok (aliasOf T ++ [T]).
Proof.
  intros H. unfold getProxiedHooks, aliasOf.
  rewrite (hookTypes_at_own _ _ H), H. destruct (proxies d); reflexivity.
Qed.

Lemma getProxiedHooks_inherited T m :
  hookTypes !! T = None → Object_prototype !! T = Some m →
  getProxiedHooks T = Ok (aliasOf T ++ [T]).
Proof.
  intros H Hm. unfold getProxiedHooks.
  by rewrite (hookTypes_at_not_own _ H), Hm, (aliasOf_not_catalogued _ H).
Qed.

Lemma getProxiedHooks_unknown T :
  hookTypes !! T = None → Object_prototype !! T = None →
  getProxiedHooks T = Throw TypeError.
Proof.
  intros H Hm. unfold getProxiedHooks.
  by rewrite (hookTypes_at_not_own _ H), Hm.
Qed.

Lemma aliasOf_NoDup T : NoDup (aliasOf T ++ [T]).
Proof.
  destruct (hookTypes !! T) as [d|] eqn:E.
  - pose proof hookTypes_proxies_NoDup as HF.
    rewrite Forall_forall in HF.
    specialize (HF _ (hookTypes_lookup _ _ E)).
    unfold proxied_NoDup in HF. unfold aliasOf. rewrite E. exact HF.
  - rewrite (aliasOf_not_catalogued _ E). cbn. apply NoDup_singleton.
Qed.

Lemma getProxiedHooks_inv T types :
  getProxiedHooks T = Ok types →
  types = aliasOf T ++ [T] ∧
  (is_Some (hookTypes !! T) ∨
   (hookTypes !! T = None ∧ is_Some (Object_prototype !! T))).
Proof.
  intros H. destruct (hookTypes !! T) as [d|] eqn:E.
  - rewrite (getProxiedHooks_known _ _ E) in H.
    split; [congruence|]. left. eauto.
  - destruct (Object_prototype !! T) as [m|] eqn:Em.
    + rewrite (getProxiedHooks_inherited _ _ E Em) in H.
      split; [congruence|]. right. eauto.
    + rewrite (getProxiedHooks_unknown _ E Em) in H. discriminate H.
Qed.

Lemma elem_of_proxied T X :
  X ∈ aliasOf T ++ [T] ↔ X ∈ T :: aliasOf T.
Proof. rewrite elem_of_app, !elem_of_cons, elem_of_nil. tauto. Qed.

Lemma restricted_here_own T d this :
  hookTypes !! T = Some d →
  restricted_here T this = noModel d && has_sequelize this.
Proof. intros H. unfold restricted_here. by rewrite (hookTypes_at_own _ _ H). Qed.

Lemma restricted_here_not_own T this :
  hookTypes !! T = None → restricted_here T this = false.
Proof.
  intros H. unfold restricted_here. rewrite (hookTypes_at_not_own _ H).
  by destruct (Object_prototype !! T).
Qed.



Lemma is_sync_not_own T : hookTypes !! T = None → is_sync (Some T) = false.
Proof.
  intros H. cbn. rewrite (hookTypes_at_not_own _ H).
  by destruct (Object_prototype !! T).
Qed.

(** ** Reading the store *)

Lemma own_list_stored st p X : own_list (Hooked (Some st) p) X = stored st X.
Proof. reflexivity. Qed.

Lemma own_list_empty_store p X : own_list (Hooked (Some ∅) p) X = [].
Proof. unfold own_list, stored. cbn. by rewrite lookup_empty. Qed.

Lemma stored_Some (st : gmap string (list entry)) X l :
  st !! X = Some l → stored st X = l.
Proof. intros H. unfold stored. by rewrite H. Qed.

Lemma store_at_array st X :
  reads_array st X → store_at st X = Some (Array (stored st X)) ∨
                     (store_at st X = None ∧ stored st X = []).
Proof.
  unfold store_at, stored. intros [[l Hl]|Hp].
  - left. by rewrite Hl.
  - destruct (st !! X); [by left|]. right. by rewrite Hp.
Qed.

Lemma getHooks_array st p X :
  reads_array st X → getHooks (Hooked (Some st) p) X = Array (stored st X).
Proof.
  intros H. unfold getHooks.
  change (default ∅ (options_hooks (Hooked (Some st) p))) with st.
  destruct (store_at_array _ _ H) as [->|[-> ->]]; reflexivity.
Qed.

Lemma getHooks_Array_inv st p X l :
  getHooks (Hooked (Some st) p) X = Array l → reads_array st X ∧ stored st X = l.
Proof.
  unfold getHooks, store_at, reads_array, stored.
  change (default ∅ (options_hooks (Hooked (Some st) p))) with st.
  destruct (st !! X) as [l'|] eqn:E.
  - intros H. split; [left; eauto|]. cbn. congruence.
  - destruct (Object_prototype !! X) as [m|]; cbn.
    + intros H. discriminate H.
    + intros H. split; [by right|congruence].
Qed.

Lemma getHooks_inherited st p X m :
  st !! X = None → Object_prototype !! X = Some m →
  getHooks (Hooked (Some st) p) X = Inherited m.
Proof.
  intros H Hm. unfold getHooks, store_at.
  change (default ∅ (options_hooks (Hooked (Some st) p))) with st.
  by rewrite H, Hm.
Qed.

Lemma getHooks_empty_store p X :
  Object_prototype !! X = None → getHooks (Hooked (Some ∅) p) X = Array [].
Proof.
  intros H. rewrite getHooks_array by (by right).
  unfold stored. by rewrite lookup_empty.
Qed.


Lemma reads_array_insert st X u (l : list entry) :
  reads_array st X → reads_array (<[u := l]> st) X.
Proof.
  intros [Hs|Hp]; [|by right]. left. destruct (decide (u = X)) as [->|Hne].
  - rewrite lookup_insert_eq. eauto.
  - by rewrite lookup_insert_ne.
Qed.

Lemma catalogued_reads_array st T X :
  is_Some (hookTypes !! T) → X ∈ aliasOf T ++ [T] → reads_array st X.
Proof.
  intros HT HX. right. apply catalogued_not_inherited.
  apply elem_of_proxied, elem_of_cons in HX as [->|HX]; [exact HT|].
  by destruct (aliasOf_catalogued _ _ HX).
Qed.

(** ** The store after a registration *)

Lemma forEach_push e types st p :
  (∀ t, t ∈ types → reads_array st t) →
  forEach types (fun type =>
      this <- get ;;
      hooks <- lift (push (getHooks this type) e) ;;
      assign_hooks type hooks) (Hooked (Some st) p)
  = (Ok tt, Hooked (Some (push_each e types st)) p).
Proof.
  revert st. induction types as [|t ts IH]; intros st Hall; [reflexivity|].
  cbn [forEach push_each]. unfold bind at 1. unfold bind at 1.
  unfold get at 1. cbv beta iota. unfold bind at 1, lift at 1.
  rewrite getHooks_array by (apply Hall, list_elem_of_here).
  cbn [push]. unfold assign_hooks at 1. cbn [options_hooks].
  unfold set_options_hooks. cbn [sequelize].
  apply IH. intros u Hu. apply reads_array_insert, Hall.
  by apply list_elem_of_further.
Qed.

Lemma forEach_push_unset e types p :
  types ≠ [] →
  forEach types (fun type =>
      this <- get ;;
      hooks <- lift (push (getHooks this type) e) ;;
      assign_hooks type hooks) (Hooked None p)
  = (Throw TypeError, Hooked None p).
Proof.
  destruct types as [|t ts]; [done|]. intros _.
  cbn [forEach]. unfold bind at 1. unfold bind at 1.
  unfold get at 1. cbv beta iota. unfold bind at 1, lift at 1.
  by destruct (getHooks (Hooked None p) t) as [l|m].
Qed.

Lemma forEach_push_inherited e t st p m :
  st !! t = None → Object_prototype !! t = Some m →
  forEach [t] (fun type =>
      this <- get ;;
      hooks <- lift (push (getHooks this type) e) ;;
      assign_hooks type hooks) (Hooked (Some st) p)
  = (Throw TypeError, Hooked (Some st) p).
Proof.
  intros H Hm. cbn [forEach]. unfold bind at 1. unfold bind at 1.
  unfold get at 1. cbv beta iota. unfold bind at 1, lift at 1.
  by rewrite (getHooks_inherited _ _ _ _ H Hm).
Qed.

Lemma stored_push_each e types st X :
  NoDup types →
  stored (push_each e types st) X
  = stored st X ++ (if bool_decide (X ∈ types) then [e] else []).
Proof.
  revert st. induction types as [|t ts IH]; intros st Hnd.
  - cbn. by rewrite app_nil_r.
  - apply NoDup_cons in Hnd as [Hnot Hnd]. cbn [push_each].
    rewrite (IH _ Hnd). unfold stored at 1.
    destruct (decide (X = t)) as [->|Hne].
    + rewrite lookup_insert_eq. cbn [default].
      rewrite (bool_decide_eq_false_2 _ Hnot).
      rewrite bool_decide_eq_true_2 by apply list_elem_of_here.
      by rewrite app_nil_r.
    + rewrite lookup_insert_ne by congruence. fold (stored st X).
      rewrite (bool_decide_ext (X ∈ t :: ts) (X ∈ ts)); [done|].
      rewrite elem_of_cons. tauto.
Qed.

Lemma push_each_keeps e types st X :
  is_Some (st !! X) → is_Some (push_each e types st !! X).
Proof.
  revert st. induction types as [|t ts IH]; intros st Hs; [done|].
  cbn [push_each]. apply IH. destruct (decide (t = X)) as [->|Hne].
  - rewrite lookup_insert_eq. eauto.
  - by rewrite lookup_insert_ne.
Qed.

Lemma lookup_push_each_is_Some e types st X :
  X ∈ types → is_Some (push_each e types st !! X).
Proof.
  revert st. induction types as [|t ts IH]; intros st Hin.
  - by apply elem_of_nil in Hin.
  - cbn [push_each]. apply elem_of_cons in Hin as [->|Hin]; [|by apply IH].
    apply push_each_keeps. rewrite lookup_insert_eq. eauto.
Qed.

Lemma push_each_is_Some_inv e types st X :
  is_Some (push_each e types st !! X) → X ∈ types ∨ is_Some (st !! X).
Proof.
  revert st. induction types as [|t ts IH]; intros st H; [by right|].
  cbn [push_each] in H. apply IH in H as [H|H].
  - left. by apply list_elem_of_further.
  - destruct (decide (t = X)) as [->|Hne].
    + left. apply list_elem_of_here.
    + right. by rewrite lookup_insert_ne in H.
Qed.

Lemma addHook_unfold T name fn this :
  addHook T name fn this =
  if restricted_here T this then (Throw (Error (restriction_message T)), this)
  else match getProxiedHooks T with
       | Ok types =>
           forEach types (fun type =>
             this <- get ;;
             hooks <- lift (push (getHooks this type) (new_entry name fn)) ;;
             assign_hooks type hooks) this
       | Throw e => (Throw e, this)
       end.
Proof.
  unfold addHook, bind at 1, get at 1.
  destruct (restricted_here T this); [reflexivity|].
  unfold bind at 1, lift at 1. by destruct (getProxiedHooks T).
Qed.

Lemma addHook_restricted T name fn this :
  restricted_here T this = true →
  addHook T name fn this = (Throw (Error (restriction_message T)), this).
Proof. intros H. rewrite addHook_unfold. by rewrite H. Qed.

Lemma addHook_unknown T name fn this :
  hookTypes !! T = None → Object_prototype !! T = None →
  addHook T name fn this = (Throw TypeError, this).
Proof.
  intros H Hm. rewrite addHook_unfold, (restricted_here_not_own _ _ H).
  by rewrite (getProxiedHooks_unknown _ H Hm).
Qed.

Lemma addHook_ok T name fn this st :
  restricted_here T this = false →
  getProxiedHooks T = Ok (aliasOf T ++ [T]) →
  options_hooks this = Some st →
  (∀ t, t ∈ aliasOf T ++ [T] → reads_array st t) →
  addHook T name fn this
  = (Ok tt, set_options_hooks
              (push_each (new_entry name fn) (aliasOf T ++ [T]) st) this).
Proof.
  intros Hr Hg Hst Hall. rewrite addHook_unfold, Hr, Hg.
  destruct this as [o p]. cbn in Hst. subst o.
  by rewrite forEach_push.
Qed.

Lemma addHook_ok_catalogued T d name fn this st :
  hookTypes !! T = Some d →
  restricted_here T this = false →
  options_hooks this = Some st →
  addHook T name fn this
  = (Ok tt, set_options_hooks
              (push_each (new_entry name fn) (aliasOf T ++ [T]) st) this).
Proof.
  intros Hd Hr Hst. apply addHook_ok; [exact Hr| |exact Hst|].
  - by apply (getProxiedHooks_known _ d).
  - intros t Ht. apply (catalogued_reads_array _ T); [eauto|exact Ht].
Qed.

(** Every call of [addHook] either goes through its whole loop or throws
    having changed nothing. *)
Lemma addHook_result T name fn this :
  (∃ st,
     options_hooks this = Some st ∧ restricted_here T this = false ∧
     getProxiedHooks T = Ok (aliasOf T ++ [T]) ∧
     (∀ t, t ∈ aliasOf T ++ [T] → reads_array st t) ∧
     addHook T name fn this
     = (Ok tt, set_options_hooks
                 (push_each (new_entry name fn) (aliasOf T ++ [T]) st) this)) ∨
  (∃ e, addHook T name fn this = (Throw e, this)).
Proof.
  destruct (restricted_here T this) eqn:Hr.
  { right. eexists. by apply addHook_restricted. }
  destruct (getProxiedHooks T) as [types|e] eqn:Hg.
  2:{ right. exists e. by rewrite addHook_unfold, Hr, Hg. }
  destruct (getProxiedHooks_inv _ _ Hg) as [-> Hkind].
  destruct this as [[st|] p].
  2:{ right. exists TypeError. rewrite addHook_unfold, Hr, Hg.
      apply forEach_push_unset. by destruct (aliasOf T). }
  destruct Hkind as [Hcat|[Hnone [m Hm]]].
  - left. exists st. split; [reflexivity|]. split; [reflexivity|].
    split; [reflexivity|].
    assert (∀ t, t ∈ aliasOf T ++ [T] → reads_array st t) as Hall.
    { intros t Ht. by apply (catalogued_reads_array _ T). }
    split; [exact Hall|]. by apply addHook_ok.
  - destruct (st !! T) as [l|] eqn:Hl.
    + left. exists st. split; [reflexivity|]. split; [reflexivity|].
      split; [reflexivity|].
      assert (∀ t, t ∈ aliasOf T ++ [T] → reads_array st t) as Hall.
      { intros t Ht. rewrite (aliasOf_not_catalogued _ Hnone) in Ht.
        apply list_elem_of_singleton in Ht as ->. left. eauto. }
      split; [exact Hall|]. by apply addHook_ok.
    + right. exists TypeError. rewrite addHook_unfold, Hr, Hg.
      rewrite (aliasOf_not_catalogued _ Hnone). cbn [app].
      by apply (forEach_push_inherited _ _ _ _ m).
Qed.

(** A call of [addHook] that returns has gone through the whole loop. *)
Lemma addHook_inv T name fn this this' :
  addHook T name fn this = (Ok tt, this') →
  ∃ st,
    options_hooks this = Some st ∧ restricted_here T this = false ∧
    getProxiedHooks T = Ok (aliasOf T ++ [T]) ∧
    (∀ t, t ∈ aliasOf T ++ [T] → reads_array st t) ∧
    this' = set_options_hooks
              (push_each (new_entry name fn) (aliasOf T ++ [T]) st) this.
Proof.
  intros H.
  destruct (addHook_result T name fn this)
    as [(st & Hst & Hr & Hg & Hall & Heq)|[e Heq]].
  - exists st. repeat (split; [assumption|]). congruence.
  - rewrite Heq in H. discriminate H.
Qed.

(** A call of [addHook] that throws has changed nothing. *)
Lemma addHook_throw_state T name fn this e this' :
  addHook T name fn this = (Throw e, this') → this' = this.
Proof.
  intros H.
  destruct (addHook_result T name fn this)
    as [(st & _ & _ & _ & _ & Heq)|[e' Heq]]; rewrite Heq in H.
  - discriminate H.
  - congruence.
Qed.

Lemma addHook_own_list T name fn this this' X :
  addHook T name fn this = (Ok tt, this') →
  sequelize this' = sequelize this ∧
  own_list this' X
  = own_list this X ++ (if bool_decide (X ∈ T :: aliasOf T)
                        then [new_entry name fn] else []).
Proof.
  intros H. apply addHook_inv in H as (st & Hst & Hr & Hg & Hall & ->).
  destruct this as [o p]. cbn in Hst. subst o. split; [reflexivity|].
  unfold set_options_hooks. cbn [sequelize]. rewrite !own_list_stored.
  rewrite (stored_push_each _ _ _ _ (aliasOf_NoDup T)).
  by rewrite (bool_decide_ext _ _ (elem_of_proxied T X)).
Qed.

(** ** [hasHook] on a host whose store is set *)

Lemma hasHook_unfold st p X :
  hasHook X (Hooked (Some st) p) = (Ok (hasHook_of st X), Hooked (Some st) p).
Proof.
  unfold hasHook, hasHook_of, store_at. cbn [options_hooks].
  destruct (st !! X) as [l|]; [reflexivity|].
  by destruct (Object_prototype !! X) as [[fn n|]|].
Qed.

Lemma hasHook_of_own st X l :
  st !! X = Some l → hasHook_of st X = Some (negb (Nat.eqb (length l) 0)).
Proof. intros H. unfold hasHook_of. by rewrite H. Qed.

Lemma hasHook_Some st p X l :
  st !! X = Some l →
  hasHook X (Hooked (Some st) p)
  = (Ok (Some (negb (Nat.eqb (length l) 0))), Hooked (Some st) p).
Proof. intros H. by rewrite hasHook_unfold, (hasHook_of_own _ _ _ H). Qed.

Lemma hasHook_of_array_empty st X :
  reads_array st X → stored st X = [] → truthy (hasHook_of st X) = false.
Proof.
  unfold reads_array, stored, hasHook_of. intros Hr He.
  destruct (st !! X) as [l|] eqn:Hl.
  - cbn in He. by subst l.
  - destruct Hr as [[l Hl']|Hp]; [discriminate Hl'|]. by rewrite Hp.
Qed.

Lemma hasHook_of_nonempty st X :
  stored st X ≠ [] → truthy (hasHook_of st X) = true.
Proof.
  unfold stored, hasHook_of. destruct (st !! X) as [[|e l]|]; cbn; done.
Qed.

(** ** The store after a removal *)

Lemma keep_matches key e : keep key e = negb (matches key e).
Proof. by destruct key, e. Qed.

Lemma filter_matches key l :
  List.filter (fun e => negb (matches key e)) l = List.filter (keep key) l.
Proof. apply List.filter_ext. intros e. by rewrite keep_matches. Qed.

Lemma filter_idem {A} (f : A → bool) l :
  List.filter f (List.filter f l) = List.filter f l.
Proof.
  induction l as [|a l IH]; [done|]. cbn.
  destruct (f a) eqn:E; cbn; rewrite ?E; congruence.
Qed.

Lemma filter_sublist {A} (f : A → bool) l : sublist (List.filter f l) l.
Proof.
  induction l as [|a l IH]; cbn; [constructor|].
  destruct (f a); by constructor.
Qed.

Lemma filter_count_occ (f : entry → bool) l e :
  f e = true →
  count_occ entry_eq_dec (List.filter f l) e = count_occ entry_eq_dec l e.
Proof.
  intros He. induction l as [|a l IH]; [done|]. cbn.
  destruct (f a) eqn:E; cbn; destruct (entry_eq_dec a e); congruence.
Qed.

Lemma filter_all_kept {A} (f : A → bool) (l : list A) :
  (∀ a, a ∈ l → f a = true) → List.filter f l = l.
Proof.
  induction l as [|a l IH]; intros H; [done|]. cbn.
  rewrite (H a) by apply list_elem_of_here. f_equal. apply IH.
  intros b Hb. apply H. by apply list_elem_of_further.
Qed.

Lemma insert_as_alter (f : list entry → list entry) t l
    (st : gmap string (list entry)) :
  st !! t = Some l → <[t := f l]> st = alter f t st.
Proof.
  intros H. apply map_eq. intros X. destruct (decide (t = X)) as [->|Hne].
  - by rewrite lookup_insert_eq, lookup_alter_eq, H.
  - by rewrite lookup_insert_ne, lookup_alter_ne.
Qed.

Lemma lookup_filter_each key types st X :
  filter_each key types st !! X
  = if bool_decide (X ∈ types) then List.filter (keep key) <$> st !! X
    else st !! X.
Proof.
  revert st. induction types as [|t ts IH]; intros st; [done|].
  cbn [filter_each]. rewrite IH. destruct (decide (X = t)) as [->|Hne].
  - rewrite lookup_alter_eq.
    rewrite (bool_decide_eq_true_2 (t ∈ t :: ts)) by apply list_elem_of_here.
    case_bool_decide; [|done].
    destruct (st !! t); cbn; [|done]. by rewrite filter_idem.
  - rewrite lookup_alter_ne by congruence.
    rewrite (bool_decide_ext (X ∈ t :: ts) (X ∈ ts)); [done|].
    rewrite elem_of_cons. tauto.
Qed.

Lemma filter_each_is_Some key types st X :
  is_Some (filter_each key types st !! X) ↔ is_Some (st !! X).
Proof.
  rewrite lookup_filter_each. case_bool_decide; [|done].
  by rewrite fmap_is_Some.
Qed.

Lemma stored_filter_each key types st X :
  stored (filter_each key types st) X
  = if bool_decide (X ∈ types) then List.filter (keep key) (stored st X)
    else stored st X.
Proof.
  unfold stored. rewrite lookup_filter_each.
  case_bool_decide; [|done]. by destruct (st !! X).
Qed.

Lemma filter_hooks_unfold key t st p :
  filter_hooks key t (Hooked (Some st) p)
  = match st !! t with
    | Some _ => (Ok tt, Hooked (Some (alter (List.filter (keep key)) t st)) p)
    | None => (Throw TypeError, Hooked (Some st) p)
    end.
Proof.
  unfold filter_hooks, store_at. cbn [options_hooks].
  destruct (st !! t) as [l|] eqn:E.
  - unfold set_options_hooks. cbn [sequelize].
    by rewrite (insert_as_alter _ _ _ _ E).
  - by destruct (Object_prototype !! t).
Qed.

(** Wherever the loop of [removeHook] stops, it has filtered the lists of
    the types it went through and nothing else. *)
Lemma forEach_filter_hooks key types st p :
  ∃ visited,
    (forEach types (filter_hooks key) (Hooked (Some st) p)).2
    = Hooked (Some (filter_each key visited st)) p.
Proof.
  revert st. induction types as [|t ts IH]; intros st.
  - by exists [].
  - cbn [forEach]. unfold bind at 1. rewrite filter_hooks_unfold.
    destruct (st !! t) as [l|]; [|by exists []].
    destruct (IH (alter (List.filter (keep key)) t st)) as [vs Hvs].
    exists (t :: vs). exact Hvs.
Qed.

Lemma forEach_filter_hooks_ok key types st p :
  (∀ t, t ∈ types → is_Some (st !! t)) →
  forEach types (filter_hooks key) (Hooked (Some st) p)
  = (Ok tt, Hooked (Some (filter_each key types st)) p).
Proof.
  revert st. induction types as [|t ts IH]; intros st Hall; [done|].
  cbn [forEach filter_each]. unfold bind at 1. rewrite filter_hooks_unfold.
  destruct (Hall t) as [l Hl]; [apply list_elem_of_here|]. rewrite Hl.
  apply IH. intros u Hu. destruct (decide (u = t)) as [->|Hne].
  - rewrite lookup_alter_eq, Hl. cbn. eauto.
  - rewrite lookup_alter_ne by congruence. apply Hall. by apply list_elem_of_further.
Qed.

(** A run of the loop of [removeHook] that returns has filtered every list
    it was given, and found each of them. *)
Lemma forEach_filter_hooks_inv key types st p this' :
  forEach types (filter_hooks key) (Hooked (Some st) p) = (Ok tt, this') →
  this' = Hooked (Some (filter_each key types st)) p ∧
  ∀ t, t ∈ types → is_Some (st !! t).
Proof.
  revert st. induction types as [|t ts IH]; intros st H.
  - cbv [forEach ret] in H. cbn [filter_each]. split; [congruence|].
    intros t Ht. by apply elem_of_nil in Ht.
  - cbn [forEach] in H. unfold bind at 1 in H. rewrite filter_hooks_unfold in H.
    destruct (st !! t) as [l|] eqn:Hl; [|discriminate H].
    apply IH in H as [-> Hall]. split; [reflexivity|].
    intros u Hu. apply elem_of_cons in Hu as [->|Hu]; [eauto|].
    specialize (Hall u Hu). destruct (decide (u = t)) as [->|Hne]; [eauto|].
    by rewrite lookup_alter_ne in Hall.
Qed.

Lemma removeHook_unfold T key st p :
  removeHook T key (Hooked (Some st) p)
  = if negb (truthy (hasHook_of st T))
    then (Ok tt, Hooked (Some st) p)
    else match getProxiedHooks T with
         | Ok types => forEach types (filter_hooks key) (Hooked (Some st) p)
         | Throw e => (Throw e, Hooked (Some st) p)
         end.
Proof.
  unfold removeHook, bind at 1. rewrite hasHook_unfold.
  destruct (negb _); [done|].
  unfold bind at 1, lift. by destruct (getProxiedHooks T).
Qed.

Lemma removeHook_unset T key p :
  removeHook T key (Hooked None p) = (Throw TypeError, Hooked None p).
Proof. reflexivity. Qed.

(** Whatever [removeHook] returns, every list is either left as it was or
    filtered by the callback of [removeHook]. *)
Lemma removeHook_store T key st p :
  ∃ visited,
    (removeHook T key (Hooked (Some st) p)).2
    = Hooked (Some (filter_each key visited st)) p.
Proof.
  rewrite removeHook_unfold. destruct (negb _); [by exists []|].
  destruct (getProxiedHooks T); [|by exists []].
  apply forEach_filter_hooks.
Qed.

Lemma removeHook_noop T key st p :
  truthy (hasHook_of st T) = false →
  removeHook T key (Hooked (Some st) p) = (Ok tt, Hooked (Some st) p).
Proof. intros H. rewrite removeHook_unfold. by rewrite H. Qed.

Lemma removeHook_inv T key st p this' :
  removeHook T key (Hooked (Some st) p) = (Ok tt, this') →
  stored st T ≠ [] →
  getProxiedHooks T = Ok (aliasOf T ++ [T]) ∧
  this' = Hooked (Some (filter_each key (aliasOf T ++ [T]) st)) p ∧
  ∀ t, t ∈ aliasOf T ++ [T] → is_Some (st !! t).
Proof.
  intros H Hne. rewrite removeHook_unfold in H.
  rewrite (hasHook_of_nonempty _ _ Hne) in H. cbn [negb] in H.
  destruct (getProxiedHooks T) as [types|e] eqn:Hg; [|discriminate H].
  destruct (getProxiedHooks_inv _ _ Hg) as [-> _].
  apply forEach_filter_hooks_inv in H as [-> Hall]. eauto.
Qed.

Lemma addHook_hasHook_true T name fn this this' X :
  addHook T name fn this = (Ok tt, this') →
  X ∈ T :: aliasOf T →
  hasHook X this' = (Ok (Some true), this').
Proof.
  intros H HX. apply addHook_inv in H as (st & Hst & Hr & Hg & Hall & ->).
  unfold set_options_hooks. apply elem_of_proxied in HX.
  destruct (lookup_push_each_is_Some (new_entry name fn) _ st X HX) as [l Hl].
  rewrite (hasHook_Some _ _ _ _ Hl).
  pose proof (stored_push_each (new_entry name fn) _ st X (aliasOf_NoDup T)) as Hs.
  rewrite (stored_Some _ _ _ Hl), (bool_decide_eq_true_2 _ HX) in Hs.
  rewrite Hs, length_app. cbn [length].
  by rewrite Nat.add_1_r.
Qed.

Lemma matches_key_of name fn : matches (key_of name fn) (new_entry name fn) = true.
Proof.
  destruct name as [n|]; cbn; [|apply Nat.eqb_refl].
  destruct (decide (n = "")); cbn; [apply Nat.eqb_refl|apply String.eqb_refl].
Qed.

(** After a registration that returned, the removal loop finds every list. *)
Lemma removeHook_after_addHook T name fn key this this1 :
  addHook T name fn this = (Ok tt, this1) →
  ∃ st1,
    this1 = Hooked (Some st1) (sequelize this) ∧
    removeHook T key this1
    = (Ok tt, Hooked (Some (filter_each key (aliasOf T ++ [T]) st1))
                (sequelize this)).
Proof.
  intros Hadd.
  pose proof (addHook_hasHook_true _ _ _ _ _ T Hadd (list_elem_of_here _ _)) as Hhas.
  apply addHook_inv in Hadd as (st & Hst & Hr & Hg & Hall & ->).
  unfold set_options_hooks in *.
  set (st1 := push_each (new_entry name fn) (aliasOf T ++ [T]) st) in *.
  exists st1. split; [reflexivity|].
  rewrite removeHook_unfold. rewrite hasHook_unfold in Hhas.
  assert (hasHook_of st1 T = Some true) as -> by congruence.
  cbn [negb truthy default]. rewrite Hg.
  apply forEach_filter_hooks_ok. intros t Ht. by apply lookup_push_each_is_Some.
Qed.

(** ** Registration *)

Local Transparent hookTypes Object_prototype.

(** C1 (unknown hook types).  The guard of [addHook] and the mode test of
    [runHooks] both let a name outside the catalog through, but
    [getProxiedHooks] reads [.proxies] of [undefined]: the call
    [addHook("myCustomHook", fn)] throws a [TypeError] and registers
    nothing, where the claim has it succeed. *)
Theorem addHook_unknown_type_throws :
  hookTypes !! "myCustomHook" = None ∧
  restricted_here "myCustomHook" (Hooked (Some ∅) None) = false ∧
  is_sync (Some "myCustomHook") = false ∧
  getProxiedHooks "myCustomHook" = Throw TypeError ∧
  addHook "myCustomHook" None 1 (Hooked (Some ∅) None)
  = (Throw TypeError, Hooked (Some ∅) None) ∧
  getHooks (addHook "myCustomHook" None 1 (Hooked (Some ∅) None)).2 "myCustomHook"
  = Array [].
Proof. vm_compute. repeat split. Qed.

Local Opaque hookTypes Object_prototype.

(** C2 (alias expansion at registration).  For a catalogued type [T] whose
    descriptor lists the proxies [A] and [B], one call [addHook(T, fn)] on a
    host with an empty store returns, and afterwards [hasHook] is [true]
    for [A], [B] and [T], the list of each being exactly [[fn]]. *)
Theorem addHook_writes_every_alias T d A B fn this :
  hookTypes !! T = Some d →
  proxies d = Some [A; B] →
  options_hooks this = Some ∅ →
  ∃ this',
    addHook T None fn this = (Ok tt, this') ∧
    hasHook A this' = (Ok (Some true), this') ∧
    hasHook B this' = (Ok (Some true), this') ∧
    hasHook T this' = (Ok (Some true), this') ∧
    getHooks this' A = Array [Bare fn] ∧
    getHooks this' B = Array [Bare fn] ∧
    getHooks this' T = Array [Bare fn].
Proof.
  intros Hd Hp Hst.
  assert (restricted_here T this = false) as Hr.
  { pose proof hookTypes_proxies_unrestricted as HF.
    rewrite Forall_forall in HF.
    specialize (HF _ (hookTypes_lookup _ _ Hd)). unfold proxies_unrestricted in HF.
    cbn in HF. rewrite (restricted_here_own _ _ _ Hd), HF; [reflexivity|].
    rewrite Hp. eauto. }
  assert (aliasOf T = [A; B]) as Ha.
  { unfold aliasOf. by rewrite Hd, Hp. }
  pose proof (aliasOf_NoDup T) as Hnd. rewrite Ha in Hnd.
  rewrite (addHook_ok_catalogued _ _ _ _ _ _ Hd Hr Hst), Ha.
  destruct this as [o p]. cbn in Hst. subst o.
  unfold set_options_hooks. cbn [sequelize new_entry].
  set (st' := push_each (Bare fn) ([A; B] ++ [T]) ∅).
  assert (∀ X, X ∈ [A; B] ++ [T] → st' !! X = Some [Bare fn]) as Hl.
  { intros X HX.
    destruct (lookup_push_each_is_Some (Bare fn) _ ∅ X HX) as [l Hl].
    fold st' in Hl. rewrite Hl. f_equal.
    rewrite <- (stored_Some _ _ _ Hl). unfold st'.
    rewrite (stored_push_each _ _ _ _ Hnd).
    rewrite bool_decide_eq_true_2 by done.
    unfold stored. by rewrite lookup_empty. }
  exists (Hooked (Some st') p). split; [reflexivity|].
  assert (A ∈ [A; B] ++ [T]) as HA by (cbn; rewrite !elem_of_cons; tauto).
  assert (B ∈ [A; B] ++ [T]) as HB by (cbn; rewrite !elem_of_cons; tauto).
  assert (T ∈ [A; B] ++ [T]) as HT by (cbn; rewrite !elem_of_cons; tauto).
  rewrite !getHooks_array by (left; rewrite Hl; eauto).
  rewrite (hasHook_Some _ _ _ _ (Hl _ HA)), (hasHook_Some _ _ _ _ (Hl _ HB)),
    (hasHook_Some _ _ _ _ (Hl _ HT)).
  rewrite (stored_Some _ _ _ (Hl _ HA)), (stored_Some _ _ _ (Hl _ HB)),
    (stored_Some _ _ _ (Hl _ HT)).
  repeat split; reflexivity.
Qed.

(** C5 (restriction).  For a type whose descriptor has [noModel] and a host
    with a parent, [addHook] throws the error whose message starts with the
    type, and the host is left as it was. *)
Theorem addHook_noModel_on_model T d name fn this parent :
  hookTypes !! T = Some d →
  noModel d = true →
  sequelize this = Some parent →
  addHook T name fn this
  = (Throw (Error (T +:+ " is only applicable on a sequelize instance or static")),
     this).
Proof.
  intros Hd Hn Hp. apply addHook_restricted.
  rewrite (restricted_here_own _ _ _ Hd), Hn. unfold has_sequelize. by rewrite Hp.
Qed.



Local Transparent hookTypes Object_prototype.


Local Opaque hookTypes Object_prototype.

Lemma getHooks_lookup st p X :
  getHooks (Hooked (Some st) p) X
  = match st !! X with
    | Some l => Array l
    | None => match Object_prototype !! X with
              | Some m => Inherited m
              | None => Array []
              end
    end.
Proof.
  unfold getHooks, store_at.
  change (default ∅ (options_hooks (Hooked (Some st) p))) with st.
  destruct (st !! X); [reflexivity|]. by destruct (Object_prototype !! X).
Qed.

(** C7 (removal by name or by reference).  Whatever [removeHook] returns,
    each list of the store is either as it was or has lost exactly the
    entries its key designates, and [getHooks] reads accordingly; an entry
    the key does not designate (every bare entry under a name, every named
    entry under a function) occurs as often as before; what remains is in
    the order it had.  In particular a callback registered without a name
    is still there, in every list it was written to, after
    [removeHook(T, "someName")], which returns. *)
Theorem removeHook_removes_only_matching T key this :
  let this' := (removeHook T key this).2 in
  sequelize this' = sequelize this ∧
  (∀ X,
     (own_list this' X = own_list this X ∨
      own_list this' X
      = List.filter (fun e => negb (matches key e)) (own_list this X)) ∧
     (getHooks this' X = getHooks this X ∨
      ∃ l, getHooks this X = Array l ∧
           getHooks this' X
           = Array (List.filter (fun e => negb (matches key e)) l)) ∧
     sublist (own_list this' X) (own_list this X) ∧
     (∀ e, matches key e = false →
        count_occ entry_eq_dec (own_list this' X) e
        = count_occ entry_eq_dec (own_list this X) e)) ∧
  (∀ n fn this0,
     key = ByName n →
     addHook T None fn this0 = (Ok tt, this) →
     (removeHook T key this).1 = Ok tt ∧
     ∀ X, X ∈ T :: aliasOf T →
       Bare fn ∈ own_list this' X ∧
       count_occ entry_eq_dec (own_list this' X) (Bare fn)
       = count_occ entry_eq_dec (own_list this X) (Bare fn)).
Proof.
  assert (sequelize (removeHook T key this).2 = sequelize this ∧
    ∀ X,
     (own_list (removeHook T key this).2 X = own_list this X ∨
      own_list (removeHook T key this).2 X
      = List.filter (keep key) (own_list this X)) ∧
     (getHooks (removeHook T key this).2 X = getHooks this X ∨
      ∃ l, getHooks this X = Array l ∧
           getHooks (removeHook T key this).2 X
           = Array (List.filter (keep key) l))) as [Hseq Hdisj].
  { destruct this as [[st|] p].
    - destruct (removeHook_store T key st p) as [vs ->]. split; [done|].
      intros X. rewrite !own_list_stored, !getHooks_lookup. unfold stored.
      rewrite lookup_filter_each. case_bool_decide; [|split; by left].
      destruct (st !! X) as [l|]; cbn.
      + split; right; [reflexivity|]. by exists l.
      + split; by left.
    - rewrite removeHook_unset. split; [done|]. intros X. split; by left. }
  cbv zeta. split; [exact Hseq|].
  assert (∀ X e, matches key e = false →
        count_occ entry_eq_dec (own_list (removeHook T key this).2 X) e
        = count_occ entry_eq_dec (own_list this X) e) as Hcount.
  { intros X e He. destruct (proj1 (Hdisj X)) as [->| ->]; [done|].
    apply filter_count_occ. by rewrite keep_matches, He. }
  split.
  - intros X. split; [|split; [|split]].
    + rewrite filter_matches. apply Hdisj.
    + destruct (proj2 (Hdisj X)) as [Heq|(l & Hl & Heq)]; [by left|].
      right. exists l. by rewrite filter_matches.
    + destruct (proj1 (Hdisj X)) as [->| ->]; [done|apply filter_sublist].
    + apply Hcount.
  - intros n fn this0 -> Hadd.
    destruct (removeHook_after_addHook _ _ _ (ByName n) _ _ Hadd)
      as (st1 & Heq & Hrem).
    split; [by rewrite Hrem|].
    intros X HX.
    assert (count_occ entry_eq_dec
              (own_list (removeHook T (ByName n) this).2 X) (Bare fn)
            = count_occ entry_eq_dec (own_list this X) (Bare fn)) as Hc.
    { by apply Hcount. }
    split; [|exact Hc].
    apply list_elem_of_In, (count_occ_In entry_eq_dec). rewrite Hc.
    apply (count_occ_In entry_eq_dec), list_elem_of_In.
    rewrite (proj2 (addHook_own_list _ _ _ _ _ X Hadd)).
    rewrite (bool_decide_eq_true_2 _ HX).
    rewrite elem_of_app, list_elem_of_singleton. by right.
Qed.

(** ** Bulk registration *)

Lemma forEach_preserves {S A} (P : S → Prop) (body : A → M S unit) (l : list A) :
  (∀ x s, P s → P (body x s).2) → ∀ s, P s → P (forEach l body s).2.
Proof.
  intros Hbody. induction l as [|x l IH]; intros s Hs; [exact Hs|].
  cbn [forEach]. unfold bind at 1. specialize (Hbody x s Hs).
  destruct (body x s) as [[[]|e] s1]; cbn [snd] in *; [by apply IH|exact Hbody].
Qed.







Lemma _setupHooks_unfold hooks this :
  _setupHooks hooks this
  = setup_loop (default [] hooks) (Hooked (Some ∅) (sequelize this)).
Proof. reflexivity. Qed.


Local Transparent hookTypes Object_prototype.


Local Opaque hookTypes Object_prototype.

(** ** Dispatch *)

Section DispatcherProperties.

Context {Value W : Type}.
Variable behaviour : fn_ref -> hooked -> list Value -> W -> result Value * W.
Variable await : Value -> W -> result Value * W.
Variable this : hooked.
Variable hookArgs : list Value.

Lemma calls_of_app (l1 l2 : list hook_value) :
  calls_of this hookArgs (l1 ++ l2)
  = calls_of this hookArgs l1 ++ calls_of this hookArgs l2.
Proof. unfold calls_of. apply flat_map_app. Qed.






(** The two loops of [runHooks] take the same steps as [element_step]. *)
Lemma sync_body_step hook (w : @world Value W) :
  (call_hook behaviour hook this hookArgs ;;; ret tt) w
  = element_step behaviour await this hookArgs true hook w.
Proof. reflexivity. Qed.

Lemma async_body_step hook (w : @world Value W) :
  match (v <- call_hook behaviour hook this hookArgs ;; awaited await v) w with
  | (Ok _, w') => (Ok tt, w')
  | (Throw e, w') => (Throw e, w')
  end = element_step behaviour await this hookArgs false hook w.
Proof.
  unfold element_step, bind.
  destruct (call_hook behaviour hook this hookArgs w) as [[v|e] w1]; [|done].
  by destruct (awaited await v w1) as [[v'|e] w2].
Qed.

Lemma run_resolved_nil sync_mode (w : @world Value W) :
  run_resolved behaviour await sync_mode this [] hookArgs w
  = (completed sync_mode, w).
Proof. by destruct sync_mode. Qed.

Lemma run_resolved_async hooks (w : @world Value W) :
  run_resolved behaviour await false this hooks hookArgs w
  = match each_from await
            (fun hook => call_hook behaviour hook this hookArgs) hooks w with
    | (None, w') => (Ok (Promise (Fulfilled tt)), w')
    | (Some e, w') => (Ok (Promise (Rejected e)), w')
    end.
Proof.
  unfold run_resolved, bind, Promise_each.
  by destruct (each_from _ _ _ _) as [[e|] w'].
Qed.

Lemma run_resolved_cons_ok sync_mode hook hooks (w w1 : @world Value W) :
  element_step behaviour await this hookArgs sync_mode hook w = (Ok tt, w1) →
  run_resolved behaviour await sync_mode this (hook :: hooks) hookArgs w
  = run_resolved behaviour await sync_mode this hooks hookArgs w1.
Proof.
  intros Hstep. destruct sync_mode.
  - unfold run_resolved. cbn [forEach]. unfold bind at 1 2.
    rewrite sync_body_step, Hstep. reflexivity.
  - rewrite !run_resolved_async. cbn [each_from].
    pose proof (async_body_step hook w) as Hb. rewrite Hstep in Hb.
    destruct ((v <- _ ;; awaited await v) w) as [[v|e] w'].
    + assert (w' = w1) as -> by congruence. reflexivity.
    + discriminate Hb.
Qed.

Lemma run_resolved_cons_fail sync_mode hook hooks (w : @world Value W) e w1 :
  element_step behaviour await this hookArgs sync_mode hook w = (Throw e, w1) →
  run_resolved behaviour await sync_mode this (hook :: hooks) hookArgs w
  = (failed sync_mode e, w1).
Proof.
  intros Hstep. destruct sync_mode.
  - unfold run_resolved. cbn [forEach]. unfold bind at 1 2.
    rewrite sync_body_step, Hstep. reflexivity.
  - rewrite run_resolved_async. cbn [each_from].
    pose proof (async_body_step hook w) as Hb. rewrite Hstep in Hb.
    destruct ((v <- _ ;; awaited await v) w) as [[v|e'] w'].
    + discriminate Hb.
    + assert (w' = w1 ∧ e' = e) as [-> ->] by (split; congruence). reflexivity.
Qed.




Lemma runHooks_unfold hooks (w : @world Value W) :
  falsy hooks = false →
  runHooks behaviour await hooks hookArgs this w
  = match resolve this hooks with
    | Ok resolved =>
        run_resolved behaviour await (is_sync (hookType_of hooks)) this
          resolved hookArgs w
    | Throw e => (Throw e, w)
    end.
Proof.
  intros H. unfold runHooks. rewrite H. unfold bind, lift.
  by destruct (resolve this hooks).
Qed.

(** What the asynchronous loop makes of an element is how it settles. *)
Lemma settles_element_step hook (w : @world Value W) r u' :
  settles behaviour await this hookArgs hook (heap w) r u' →
  element_step behaviour await this hookArgs false hook w
  = (r, World u' (calls w ++ calls_of this hookArgs [hook])).
Proof.
  intros H. inversion H as [h u e u1 Hb|h u v u1 e u2 Hb Ha
                           |h u v u1 v' u2 Hb Ha|u]; subst.
  - unfold element_step, bind, call_hook, apply. cbv zeta. by rewrite Hb.
  - unfold element_step, bind, call_hook, apply, awaited. cbv zeta.
    rewrite Hb. cbn [heap calls]. by rewrite Ha.
  - unfold element_step, bind, call_hook, apply, awaited. cbv zeta.
    rewrite Hb. cbn [heap calls]. by rewrite Ha.
  - cbn. rewrite app_nil_r. by destruct w.
Qed.

Lemma run_resolved_all_fulfil hooks rest (w : @world Value W) u' :
  all_fulfil behaviour await this hookArgs hooks (heap w) u' →
  run_resolved behaviour await false this (hooks ++ rest) hookArgs w
  = run_resolved behaviour await false this rest hookArgs
      (World u' (calls w ++ calls_of this hookArgs hooks)).
Proof.
  revert w. induction hooks as [|h hs IH]; intros w H.
  - inversion H; subst. cbn. rewrite app_nil_r. by destruct w.
  - inversion H as [|h' hs' u u1 u2 Hs Hrest]; subst.
    apply settles_element_step in Hs. cbn [app].
    rewrite (run_resolved_cons_ok _ _ _ _ _ Hs).
    rewrite (IH (World u1 (calls w ++ calls_of this hookArgs [h])) Hrest).
    cbn [calls]. rewrite <- app_assoc, <- calls_of_app. reflexivity.
Qed.

Lemma settles_total hook u :
  ∃ r u', settles behaviour await this hookArgs hook u r u'.
Proof.
  destruct hook as [hook|].
  2:{ do 2 eexists. constructor. }
  destruct (behaviour (unwrap hook) this hookArgs u) as [[v|e] u1] eqn:Hb.
  - destruct (await v u1) as [[v'|e] u2] eqn:Ha.
    + do 2 eexists. by eapply settles_fulfils.
    + do 2 eexists. by eapply settles_rejects.
  - do 2 eexists. by eapply settles_throws.
Qed.

(** Every asynchronous run is of one of the two kinds. *)
Lemma fulfil_or_fail hooks u :
  (∃ u', all_fulfil behaviour await this hookArgs hooks u u') ∨
  (∃ pre hook post u1 e u2,
     hooks = pre ++ hook :: post ∧
     all_fulfil behaviour await this hookArgs pre u u1 ∧
     settles behaviour await this hookArgs hook u1 (Throw e) u2).
Proof.
  revert u. induction hooks as [|h hs IH]; intros u.
  - left. exists u. constructor.
  - destruct (settles_total h u) as ([[]|e] & u1 & Hs).
    + destruct (IH u1) as [[u' Hok]|(pre & hook & post & u1' & e & u2 & -> & Hpre & Hf)].
      * left. exists u'. by econstructor.
      * right. exists (h :: pre), hook, post, u1', e, u2.
        split; [reflexivity|]. split; [by econstructor|exact Hf].
    + right. exists [], h, hs, u, e, u1. split; [reflexivity|].
      split; [constructor|exact Hs].
Qed.


End DispatcherProperties.





(** C3 (asynchronous fail-fast).  Modelled from the spec: [Promise.each]
    and [.return()] are Bluebird's, which is not part of the module; the
    model is the spec's sequential, fail-fast waiting.  A hook fails when
    its call throws or the value it returns rejects, and succeeds when that
    value fulfils ([settles], told from the hooks themselves).  On the
    asynchronous path, when the elements before position i succeed and
    element i fails with [e], the promise of [runHooks] rejects with [e]
    and the calls made are those of elements 0..i, in order: no later hook
    is called.  When every element succeeds the promise fulfils with
    [undefined] after one call per hook.  A resolved array always runs in
    one of these two ways; when no array can be resolved, [runHooks] throws
    before any hook is called. *)
Theorem runHooks_async_stops_at_first_failure {Value W}
    (behaviour : fn_ref -> hooked -> list Value -> W -> result Value * W)
    (await : Value -> W -> result Value * W)
    (hooks : hooks_arg) (hookArgs : list Value) (this : hooked) (w : world) :
  falsy hooks = false →
  is_sync (hookType_of hooks) = false →
  (∀ pre hook post u1 e u2,
     resolve this hooks = Ok (pre ++ hook :: post) →
     all_fulfil behaviour await this hookArgs pre (heap w) u1 →
     settles behaviour await this hookArgs hook u1 (Throw e) u2 →
     runHooks behaviour await hooks hookArgs this w
     = (Ok (Promise (Rejected e)),
        World u2 (calls w ++ calls_of this hookArgs (pre ++ [hook])))) ∧
  (∀ resolved u',
     resolve this hooks = Ok resolved →
     all_fulfil behaviour await this hookArgs resolved (heap w) u' →
     runHooks behaviour await hooks hookArgs this w
     = (Ok (Promise (Fulfilled tt)),
        World u' (calls w ++ calls_of this hookArgs resolved))) ∧
  (∀ resolved,
     resolve this hooks = Ok resolved →
     (∃ u', all_fulfil behaviour await this hookArgs resolved (heap w) u') ∨
     (∃ pre hook post u1 e u2,
        resolved = pre ++ hook :: post ∧
        all_fulfil behaviour await this hookArgs pre (heap w) u1 ∧
        settles behaviour await this hookArgs hook u1 (Throw e) u2)) ∧
  (∀ e,
     resolve this hooks = Throw e →
     runHooks behaviour await hooks hookArgs this w = (Throw e, w)).
Proof.
  intros Hf Hs. rewrite (runHooks_unfold _ _ _ _ _ _ Hf), Hs.
  split; [|split; [|split]].
  - intros pre hook post u1 e u2 -> Hpre Hstep.
    rewrite (run_resolved_all_fulfil _ _ _ _ _ _ _ _ Hpre).
    rewrite (run_resolved_cons_fail behaviour await this hookArgs false hook post
               (World u1 (calls w ++ calls_of this hookArgs pre)) e
               (World u2 (calls w ++ calls_of this hookArgs (pre ++ [hook])))).
    + reflexivity.
    + rewrite (settles_element_step behaviour await this hookArgs hook
                 (World u1 (calls w ++ calls_of this hookArgs pre))
                 (Throw e) u2 Hstep).
      cbn [calls]. by rewrite calls_of_app, app_assoc.
  - intros resolved u' -> Hall.
    rewrite <- (app_nil_r resolved) at 1.
    rewrite (run_resolved_all_fulfil _ _ _ _ _ _ _ _ Hall).
    apply run_resolved_nil.
  - intros resolved _. apply fulfil_or_fail.
  - by intros e ->.
Qed.




(** C9 (no hooks argument).  [runHooks] called without its first argument
    throws the error [runHooks requires at least 1 argument]; nothing has
    been looked up or called: the state of the dispatch is as it was. *)
Theorem runHooks_requires_hooks {Value W}
    (behaviour : fn_ref -> hooked -> list Value -> W -> result Value * W)
    (await : Value -> W -> result Value * W)
    (hookArgs : list Value) (this : hooked) (w : world) :
  runHooks behaviour await NoHooks hookArgs this w
  = (Throw (Error "runHooks requires at least 1 argument"), w).
Proof. reflexivity. Qed.

(** ** The theorems at concrete hosts and hooks *)

Local Transparent hookTypes Object_prototype.

(** Registering [logFn] under ["beforeSave"] and dispatching
    ["beforeUpdate"] calls it once, with the host as receiver. *)
Example beforeSave_runs_on_beforeUpdate :
  runHooks demo_behaviour demo_await (HookType "beforeUpdate") demo_args
    (addHook "beforeSave" None 4 demo_model).2 (World 0 [])
  = (Ok (Promise (Fulfilled tt)),
     World 1 [(4, (addHook "beforeSave" None 4 demo_model).2, demo_args)]).
Proof. vm_compute. reflexivity. Qed.

(** Registering two callbacks and removing the first leaves the second. *)
Example remove_first_keeps_second :
  getHooks ((addHook "afterFind" None 1 ;;; addHook "afterFind" None 2 ;;;
             removeHook "afterFind" (ByReference 1)) demo_model).2 "afterFind"
  = Array [Bare 2].
Proof. vm_compute. reflexivity. Qed.

(** A hook that throws stops an asynchronous run as a rejected promise
    does, and a rejected promise is not even noticed by a synchronous
    run. *)
Example throwing_hook_stops_async_run :
  runHooks demo_behaviour demo_await (HookList [Bare 1; Named "second" 2; Bare 3])
    demo_args demo_sequelize (World 0 [])
  = (Ok (Promise (Rejected (Other 7))),
     World 2 [(1, demo_sequelize, demo_args); (2, demo_sequelize, demo_args)]).
Proof. vm_compute. reflexivity. Qed.

Example rejected_promise_ignored_by_sync_run :
  (runHooks demo_behaviour demo_await (HookType "afterDefine") demo_args
     (addHook "afterDefine" None 3
        (addHook "afterDefine" None 5 demo_sequelize).2).2 (World 0 [])).1
  = Ok Undefined.
Proof. vm_compute. reflexivity. Qed.

(** Bulk setup drops what was there and expands proxies, in the order of
    the definition. *)
Example setup_replaces_the_store :
  let this' :=
    (_setupHooks (Some [("beforeSave", OneFn 1); ("beforeCreate", ManyFns [2; 3])])
       (Hooked (Some {[ "afterFind" := [Bare 9] ]}) None)).2 in
  getHooks this' "afterFind" = Array [] ∧
  getHooks this' "beforeCreate" = Array [Bare 1; Bare 2; Bare 3] ∧
  getHooks this' "beforeUpdate" = Array [Bare 1] ∧
  getHooks this' "beforeSave" = Array [Bare 1].
Proof. vm_compute. repeat split. Qed.

(** A name outside the catalog stops the bulk setup half-way. *)
Example setup_stops_at_unknown_type :
  let r :=
    _setupHooks (Some [("beforeCreate", OneFn 1); ("myCustomHook", OneFn 2);
                       ("afterCreate", OneFn 3)]) demo_sequelize in
  r.1 = Throw TypeError ∧
  getHooks r.2 "beforeCreate" = Array [Bare 1] ∧
  getHooks r.2 "myCustomHook" = Array [] ∧
  getHooks r.2 "afterCreate" = Array [].
Proof. vm_compute. repeat split. Qed.

(** What a store without a list of its own hands out under the names of
    [Object.prototype]. *)
Example inherited_names_read :
  getHooks demo_sequelize "toString" = Inherited (BuiltinFunction 1008 0) ∧
  getHooks demo_sequelize "__proto__" = Inherited PrototypeObject ∧
  getProxiedHooks "toString" = Ok ["toString"] ∧
  hasHook "toString" demo_sequelize = (Ok (Some false), demo_sequelize) ∧
  hasHook "__proto__" demo_sequelize = (Ok (Some false), demo_sequelize) ∧
  addHook "toString" None 1 demo_sequelize = (Throw TypeError, demo_sequelize) ∧
  addHook "toString" None 1 (Hooked (Some {[ "toString" := [] ]}) None)
  = (Ok tt, Hooked (Some {[ "toString" := [Bare 1] ]}) None) ∧
  runHooks demo_behaviour demo_await (HookType "__proto__") demo_args
    demo_sequelize (World 0 [])
  = (Ok (Promise (Rejected TypeError)), World 0 []).
Proof. vm_compute. repeat split. Qed.

Lemma addHook_writes_every_alias_witness :
  hookTypes !! "beforeSave"
  = Some (Descriptor 2 false false (Some ["beforeUpdate"; "beforeCreate"])) ∧
  ∃ this',
    addHook "beforeSave" None 7 (Hooked (Some ∅) None) = (Ok tt, this') ∧
    hasHook "beforeUpdate" this' = (Ok (Some true), this') ∧
    hasHook "beforeCreate" this' = (Ok (Some true), this') ∧
    hasHook "beforeSave" this' = (Ok (Some true), this') ∧
    getHooks this' "beforeUpdate" = Array [Bare 7] ∧
    getHooks this' "beforeCreate" = Array [Bare 7] ∧
    getHooks this' "beforeSave" = Array [Bare 7].
Proof.
  split; [vm_compute; reflexivity|].
  apply (addHook_writes_every_alias "beforeSave"
           (Descriptor 2 false false (Some ["beforeUpdate"; "beforeCreate"]))
           "beforeUpdate" "beforeCreate" 7 (Hooked (Some ∅) None)).
  - vm_compute; reflexivity.
  - reflexivity.
  - reflexivity.
Defined.

Lemma addHook_noModel_on_model_witness :
  addHook "beforeDefine" (Some "audit") 3 demo_model
  = (Throw (Error "beforeDefine is only applicable on a sequelize instance or static"),
     demo_model).
Proof.
  apply (addHook_noModel_on_model "beforeDefine" (Descriptor 2 true true None)
           (Some "audit") 3 demo_model demo_sequelize).
  - vm_compute; reflexivity.
  - reflexivity.
  - reflexivity.
Defined.


Lemma removeHook_removes_only_matching_witness :
  addHook "afterSave" None 4 demo_model
  = (Ok tt, (addHook "afterSave" None 4 demo_model).2) ∧
  (removeHook "afterSave" (ByName "someName")
     (addHook "afterSave" None 4 demo_model).2).1 = Ok tt ∧
  ∀ X, X ∈ "afterSave" :: aliasOf "afterSave" →
    Bare 4 ∈ own_list (removeHook "afterSave" (ByName "someName")
                         (addHook "afterSave" None 4 demo_model).2).2 X ∧
    count_occ entry_eq_dec
      (own_list (removeHook "afterSave" (ByName "someName")
                   (addHook "afterSave" None 4 demo_model).2).2 X) (Bare 4)
    = count_occ entry_eq_dec
        (own_list (addHook "afterSave" None 4 demo_model).2 X) (Bare 4).
Proof.
  assert (addHook "afterSave" None 4 demo_model
          = (Ok tt, (addHook "afterSave" None 4 demo_model).2)) as Hadd.
  { vm_compute; reflexivity. }
  split; [exact Hadd|].
  apply (proj2 (proj2 (removeHook_removes_only_matching "afterSave"
                         (ByName "someName")
                         (addHook "afterSave" None 4 demo_model).2))
           "someName" 4 demo_model eq_refl Hadd).
Defined.


Lemma runHooks_async_stops_at_first_failure_witness :
  runHooks demo_behaviour demo_await (HookList [Bare 1; Named "second" 5; Bare 3])
    demo_args demo_model (World 0 [])
  = (Ok (Promise (Rejected (Other 9))),
     World 2 [(1, demo_model, demo_args); (5, demo_model, demo_args)]).
Proof.
  apply (proj1 (runHooks_async_stops_at_first_failure demo_behaviour demo_await
                  (HookList [Bare 1; Named "second" 5; Bare 3]) demo_args demo_model
                  (World 0 []) eq_refl eq_refl)
           [Entry (Bare 1)] (Entry (Named "second" 5)) [Entry (Bare 3)]
           1 (Other 9) 2).
  - reflexivity.
  - apply (all_fulfil_cons demo_behaviour demo_await demo_model demo_args
             (Entry (Bare 1)) [] 0 1 1).
    + apply (settles_fulfils demo_behaviour demo_await demo_model demo_args
               (Bare 1) 0 1 1 1 1); reflexivity.
    + apply all_fulfil_nil.
  - apply (settles_rejects demo_behaviour demo_await demo_model demo_args
             (Named "second" 5) 1 5 2 (Other 9) 2); reflexivity.
Defined.



Local Opaque hookTypes Object_prototype.

(** * Further properties of the registry and the dispatcher *)

Lemma lookup_push_each e types st X :
  NoDup types →
  push_each e types st !! X
  = if bool_decide (X ∈ types) then Some (stored st X ++ [e]) else st !! X.
Proof.
  revert st. induction types as [|t ts IH]; intros st Hnd.
  - rewrite bool_decide_eq_false_2; [reflexivity|]. apply not_elem_of_nil.
  - apply NoDup_cons in Hnd as [Ht Hnd]. cbn [push_each]. rewrite (IH _ Hnd).
    destruct (decide (X = t)) as [->|Hne].
    + rewrite (bool_decide_eq_false_2 _ Ht).
      rewrite (bool_decide_eq_true_2 (t ∈ t :: ts)) by apply list_elem_of_here.
      apply lookup_insert_eq.
    + unfold stored. rewrite lookup_insert_ne by congruence.
      apply (f_equal (fun b : bool =>
               if b then Some (default [] (st !! X) ++ [e]) else st !! X)).
      apply bool_decide_ext. rewrite elem_of_cons. tauto.
Qed.

Lemma getHooks_after_addHook T name fn this this' X :
  addHook T name fn this = (Ok tt, this') →
  getHooks this' X
  = if bool_decide (X ∈ T :: aliasOf T)
    then Array (own_list this X ++ [new_entry name fn])
    else getHooks this X.
Proof.
  intros H. apply addHook_inv in H as (st & Hst & _ & _ & _ & ->).
  destruct this as [o p]. cbn in Hst. subst o.
  unfold set_options_hooks. cbn [sequelize].
  rewrite !getHooks_lookup, own_list_stored.
  rewrite (lookup_push_each _ _ _ _ (aliasOf_NoDup T)).
  rewrite (bool_decide_ext _ _ (elem_of_proxied T X)).
  by case_bool_decide.
Qed.

(** A registration that returns on a closed store is one of a catalogued
    type. *)
Lemma addHook_closed_catalogued T name fn this this' :
  store_closed this →
  addHook T name fn this = (Ok tt, this') →
  is_Some (hookTypes !! T).
Proof.
  intros (st0 & Hst0 & Hclosed) H.
  apply addHook_inv in H as (st & Hst & _ & Hg & Hall & _).
  assert (st0 = st) as -> by congruence.
  apply getProxiedHooks_inv in Hg as [_ [Hcat|[Hnone [m Hm]]]]; [exact Hcat|].
  destruct (Hall T) as [Hown|Hplain].
  - rewrite elem_of_app, list_elem_of_singleton. by right.
  - exact (proj1 (Hclosed T Hown)).
  - congruence.
Qed.

Lemma store_closed_addHook T name fn this :
  store_closed this → store_closed (addHook T name fn this).2.
Proof.
  intros Hc. destruct (addHook T name fn this) as [[[]|e] this'] eqn:E; cbn [snd].
  2:{ by apply addHook_throw_state in E as ->. }
  pose proof (addHook_closed_catalogued _ _ _ _ _ Hc E) as Hcat.
  apply addHook_inv in E as (st & Hst & _ & _ & _ & ->).
  destruct Hc as (st0 & Hst0 & Hclosed).
  assert (st0 = st) as -> by congruence. clear Hst0.
  eexists. split; [reflexivity|]. intros U HU.
  apply push_each_is_Some_inv in HU as [HU|HU].
  - apply elem_of_proxied, elem_of_cons in HU as [->|HU].
    + split; [exact Hcat|]. intros X HX. apply lookup_push_each_is_Some.
      apply elem_of_proxied. by apply list_elem_of_further.
    + destruct (aliasOf_catalogued _ _ HU) as [HcatU Hnone]. split; [exact HcatU|].
      rewrite Hnone. intros X HX. apply elem_of_nil in HX. destruct HX.
  - destruct (Hclosed U HU) as [HcatU Hal]. split; [exact HcatU|].
    intros X HX. apply push_each_keeps. by apply Hal.
Qed.

Lemma store_closed_removeHook T key this :
  store_closed this → store_closed (removeHook T key this).2.
Proof.
  intros (st & Hst & Hclosed). destruct this as [o p]. cbn in Hst. subst o.
  destruct (removeHook_store T key st p) as [vs ->].
  eexists. split; [reflexivity|]. intros U HU.
  apply filter_each_is_Some in HU. destruct (Hclosed U HU) as [Hcat Hal].
  split; [exact Hcat|]. intros X HX. apply filter_each_is_Some. by apply Hal.
Qed.

Lemma store_closed_setupHooks hooks this :
  store_closed (_setupHooks hooks this).2.
Proof.
  rewrite _setupHooks_unfold. unfold setup_loop.
  apply (forEach_preserves store_closed).
  - intros [hookName hooksArray] s Hs.
    apply (forEach_preserves store_closed); [|exact Hs].
    intros hookFn s' Hs'. by apply store_closed_addHook.
  - exists ∅. split; [reflexivity|]. intros T [l Hl].
    rewrite lookup_empty in Hl. discriminate Hl.
Qed.

Lemma api_built_closed this : api_built this → store_closed this.
Proof.
  induction 1 as [hooks this|T name fn this _ IH|T key this _ IH].
  - apply store_closed_setupHooks.
  - by apply store_closed_addHook.
  - by apply store_closed_removeHook.
Qed.

Lemma inherited_not_catalogued T m :
  Object_prototype !! T = Some m → hookTypes !! T = None.
Proof.
  intros Hm. destruct (hookTypes !! T) as [d|] eqn:Hd; [|reflexivity].
  assert (Object_prototype !! T = None) as Hnone.
  { apply catalogued_not_inherited. rewrite Hd. eauto. }
  congruence.
Qed.

(** On a closed store [removeHook] throws for the names of the built-in
    functions with parameters, which [hasHook] takes for hooks, and for
    nothing else. *)
Lemma removeHook_closed T key this :
  store_closed this →
  (removeHook T key this).1 = Ok tt ↔
  ¬ ∃ fn n, Object_prototype !! T = Some (BuiltinFunction fn (S n)).
Proof.
  intros (st & Hst & Hclosed). destruct this as [o p]. cbn in Hst. subst o.
  rewrite removeHook_unfold. unfold hasHook_of.
  destruct (st !! T) as [l|] eqn:Hl.
  - destruct (Hclosed T) as [[d Hd] Hal]; [rewrite Hl; eauto|].
    assert (Object_prototype !! T = None) as Hplain.
    { apply catalogued_not_inherited. rewrite Hd. eauto. }
    split.
    + intros _ (fn & n & Hm). congruence.
    + intros _. destruct (negb _); [reflexivity|].
      rewrite (getProxiedHooks_known _ _ Hd), forEach_filter_hooks_ok;
        [reflexivity|].
      intros t Ht. apply elem_of_proxied, elem_of_cons in Ht as [->|Ht].
      * rewrite Hl. eauto.
      * by apply Hal.
  - destruct (Object_prototype !! T) as [[fn [|n]| ]|] eqn:Hm; cbn.
    + split; [|reflexivity]. intros _ (fn' & n' & H'). discriminate H'.
    + rewrite (getProxiedHooks_inherited _ _ (inherited_not_catalogued _ _ Hm) Hm).
      rewrite (aliasOf_not_catalogued _ (inherited_not_catalogued _ _ Hm)).
      cbn [app forEach]. unfold bind. rewrite filter_hooks_unfold, Hl. cbn [fst].
      split; [intros H; discriminate H|]. intros H. destruct H. eauto.
    + split; [|reflexivity]. intros _ (fn' & n' & H'). discriminate H'.
    + split; [|reflexivity]. intros _ (fn' & n' & H'). discriminate H'.
Qed.

Lemma removeHook_inv_truthy T key st p this' :
  removeHook T key (Hooked (Some st) p) = (Ok tt, this') →
  truthy (hasHook_of st T) = true →
  getProxiedHooks T = Ok (aliasOf T ++ [T]) ∧
  this' = Hooked (Some (filter_each key (aliasOf T ++ [T]) st)) p ∧
  ∀ t, t ∈ aliasOf T ++ [T] → is_Some (st !! t).
Proof.
  intros H Ht. rewrite removeHook_unfold, Ht in H. cbn [negb] in H.
  destruct (getProxiedHooks T) as [types|e] eqn:Hg; [|discriminate H].
  destruct (getProxiedHooks_inv _ _ Hg) as [-> _].
  apply forEach_filter_hooks_inv in H as [-> Hall]. eauto.
Qed.

(** ** Registration *)

(** X1.  A call of [addHook] that returns has pushed its entry at the end
    of the list of the type and of each of its proxies; every other list is
    as it was, and so is the parent; [getHooks] reads the new lists of the
    type and of its proxies, and what it read before for any other name. *)
Theorem addHook_appends_to_type_and_proxies T name fn this this' :
  addHook T name fn this = (Ok tt, this') →
  sequelize this' = sequelize this ∧
  (∀ X, own_list this' X
        = own_list this X ++ (if bool_decide (X ∈ T :: aliasOf T)
                              then [new_entry name fn] else [])) ∧
  (∀ X, getHooks this' X
        = if bool_decide (X ∈ T :: aliasOf T)
          then Array (own_list this X ++ [new_entry name fn])
          else getHooks this X).
Proof.
  intros H. split; [|split].
  - exact (proj1 (addHook_own_list _ _ _ _ _ T H)).
  - intros X. exact (proj2 (addHook_own_list _ _ _ _ _ X H)).
  - intros X. by apply getHooks_after_addHook.
Qed.

(** X2.  [addHook] returns exactly when the type is not a [noModel] type
    on a host with a parent, [options.hooks] is set, and the type is in the
    catalog or is the name of a member of [Object.prototype] for which the
    store has a list of its own; a call that throws has changed nothing,
    proxies included. *)
Theorem addHook_returns_iff_and_fails_atomically T name fn this :
  ((addHook T name fn this).1 = Ok tt ↔
   restricted_here T this = false ∧
   ∃ st, options_hooks this = Some st ∧
         (is_Some (hookTypes !! T) ∨
          (is_Some (Object_prototype !! T) ∧ is_Some (st !! T)))) ∧
  ((addHook T name fn this).1 ≠ Ok tt → (addHook T name fn this).2 = this).
Proof.
  split.
  - split.
    + intros H. destruct (addHook T name fn this) as [r this'] eqn:E.
      cbn [fst] in H. subst r.
      apply addHook_inv in E as (st & Hst & Hr & Hg & Hall & _).
      split; [exact Hr|]. exists st. split; [exact Hst|].
      apply getProxiedHooks_inv in Hg as [_ [Hcat|[Hnone Hm]]]; [by left|].
      right. split; [exact Hm|]. destruct (Hall T) as [Hown|Hplain].
      * rewrite elem_of_app, list_elem_of_singleton. by right.
      * exact Hown.
      * destruct Hm as [m Hm]. congruence.
    + intros (Hr & st & Hst & [[d Hd]|[[m Hm] Hown]]).
      * by rewrite (addHook_ok_catalogued _ _ _ _ _ _ Hd Hr Hst).
      * pose proof (inherited_not_catalogued _ _ Hm) as Hnone.
        rewrite (addHook_ok _ _ _ _ _ Hr
                   (getProxiedHooks_inherited _ _ Hnone Hm) Hst); [reflexivity|].
        intros t Ht. rewrite (aliasOf_not_catalogued _ Hnone) in Ht.
        apply list_elem_of_singleton in Ht as ->. by left.
  - intros H. destruct (addHook T name fn this) as [[[]|e] this'] eqn:E.
    + by destruct H.
    + cbn [snd]. by apply addHook_throw_state in E.
Qed.

(** X3.  After a call of [addHook] that returns, [hasHook] is [true] for the
    type and for each of its proxies, whatever the store held before. *)
Theorem addHook_then_hasHook T name fn this this' X :
  addHook T name fn this = (Ok tt, this') →
  X ∈ T :: aliasOf T →
  hasHook X this' = (Ok (Some true), this').
Proof. apply addHook_hasHook_true. Qed.

(** ** Removal *)

(** X4.  [removeHook] looks at what the store gives under the very name it
    is handed: when that is a missing or empty list, the call returns and
    changes nothing, whatever the lists of the proxies hold, and also for a
    name that is neither in the catalog nor inherited from
    [Object.prototype]. *)
Theorem removeHook_without_hooks_is_noop T key this st :
  options_hooks this = Some st →
  getHooks this T = Array [] →
  removeHook T key this = (Ok tt, this).
Proof.
  intros Hst Hempty. destruct this as [o p]. cbn in Hst. subst o.
  apply getHooks_Array_inv in Hempty as [Hr Hs].
  apply removeHook_noop. by apply hasHook_of_array_empty.
Qed.

(** X5.  A call of [removeHook] that returns, on a type that had hooks,
    has filtered the list of the type and of each proxy: these lists are
    the old ones without the entries the key designates, so that no such
    entry is left, however often it had been registered; the other lists
    and the parent are as they were; and [getHooks] reads these very lists
    for the type and its proxies, before and after. *)
Theorem removeHook_removes_every_match T key this this' :
  removeHook T key this = (Ok tt, this') →
  own_list this T ≠ [] →
  sequelize this' = sequelize this ∧
  (∀ X, own_list this' X
        = if bool_decide (X ∈ T :: aliasOf T)
          then List.filter (fun e => negb (matches key e)) (own_list this X)
          else own_list this X) ∧
  (∀ X e, X ∈ T :: aliasOf T → e ∈ own_list this' X → matches key e = false) ∧
  (∀ X, X ∈ T :: aliasOf T →
        getHooks this X = Array (own_list this X) ∧
        getHooks this' X = Array (own_list this' X)).
Proof.
  intros H Hne. destruct this as [[st|] p].
  2:{ rewrite removeHook_unset in H. discriminate H. }
  rewrite own_list_stored in Hne.
  apply removeHook_inv in H as (_ & -> & Hown); [|exact Hne].
  assert (∀ X, own_list (Hooked (Some (filter_each key (aliasOf T ++ [T]) st)) p) X
        = if bool_decide (X ∈ T :: aliasOf T)
          then List.filter (fun e => negb (matches key e))
                 (own_list (Hooked (Some st) p) X)
          else own_list (Hooked (Some st) p) X) as Hlists.
  { intros X. rewrite !own_list_stored, stored_filter_each, filter_matches.
    by rewrite (bool_decide_ext _ _ (elem_of_proxied T X)). }
  split; [reflexivity|]. split; [exact Hlists|]. split.
  - intros X e HX He. rewrite Hlists, (bool_decide_eq_true_2 _ HX) in He.
    apply list_elem_of_In, List.filter_In in He as [_ He].
    by apply negb_true_iff in He.
  - intros X HX. apply elem_of_proxied in HX. rewrite !own_list_stored. split.
    + apply getHooks_array. left. by apply Hown.
    + apply getHooks_array. left. apply filter_each_is_Some. by apply Hown.
Qed.

(** X6.  [removeHook] is idempotent: after a call that returned, the same
    call returns again and changes nothing. *)
Theorem removeHook_twice T key this this' :
  removeHook T key this = (Ok tt, this') →
  removeHook T key this' = (Ok tt, this').
Proof.
  intros H. destruct this as [[st|] p].
  2:{ rewrite removeHook_unset in H. discriminate H. }
  destruct (truthy (hasHook_of st T)) eqn:Ht.
  2:{ assert (this' = Hooked (Some st) p) as ->.
      { rewrite (removeHook_noop _ _ _ _ Ht) in H. congruence. }
      by apply removeHook_noop. }
  apply removeHook_inv_truthy in H as (Hg & -> & Hall); [|exact Ht].
  set (st' := filter_each key (aliasOf T ++ [T]) st).
  destruct (truthy (hasHook_of st' T)) eqn:Ht'.
  2:{ by apply removeHook_noop. }
  rewrite removeHook_unfold, Ht', Hg. cbn [negb].
  rewrite forEach_filter_hooks_ok.
  2:{ intros t Hin. apply filter_each_is_Some. by apply Hall. }
  do 2 f_equal. f_equal. apply map_eq. intros X. unfold st'.
  rewrite !lookup_filter_each. case_bool_decide; [|done].
  destruct (st !! X); cbn; [|done]. by rewrite filter_idem.
Qed.

(** X7.  On a host the API has built, by [_setupHooks] and then any calls
    of [addHook] and [removeHook], [hasHook] never throws; [removeHook]
    throws for the names of the functions of [Object.prototype] that take
    parameters, such as ["hasOwnProperty"], and for nothing else; and
    [addHook] returns for the catalogued types that are not [noModel]
    types on a host with a parent, and throws for every other name. *)
Theorem api_built_calls_return this :
  api_built this →
  ∀ T,
    (∃ v, hasHook T this = (Ok v, this)) ∧
    (∀ key,
       (removeHook T key this).1 = Ok tt ↔
       ¬ ∃ fn n, Object_prototype !! T = Some (BuiltinFunction fn (S n))) ∧
    (∀ name fn,
       (addHook T name fn this).1 = Ok tt ↔
       is_Some (hookTypes !! T) ∧ restricted_here T this = false).
Proof.
  intros Hb T. apply api_built_closed in Hb as Hc.
  pose proof Hc as (st & Hst & Hclosed).
  split; [|split].
  - destruct this as [o p]. cbn in Hst. subst o. rewrite hasHook_unfold. eauto.
  - intros key. by apply removeHook_closed.
  - intros name fn. split.
    + intros H. destruct (addHook T name fn this) as [r this'] eqn:E.
      cbn [fst] in H. subst r. split.
      * exact (addHook_closed_catalogued _ _ _ _ _ Hc E).
      * by apply addHook_inv in E as (st1 & _ & Hr & _).
    + intros [[d Hd] Hr]. by rewrite (addHook_ok_catalogued _ _ _ _ _ _ Hd Hr Hst).
Qed.

(** X8.  Registration and removal are inverse on the lists: when no entry
    already under the type or its proxies is designated by the key of the
    new entry (its name if it has one, the function otherwise), [addHook]
    followed by [removeHook] with that key returns and leaves every list
    as it was before the registration, and [getHooks] reads for every name
    what it read before. *)
Theorem addHook_then_removeHook_restores_lists T name fn this this1 :
  addHook T name fn this = (Ok tt, this1) →
  (∀ X e, X ∈ T :: aliasOf T → e ∈ own_list this X →
          matches (key_of name fn) e = false) →
  ∃ this2,
    removeHook T (key_of name fn) this1 = (Ok tt, this2) ∧
    sequelize this2 = sequelize this ∧
    (∀ X, own_list this2 X = own_list this X) ∧
    (∀ X, getHooks this2 X = getHooks this X).
Proof.
  intros Hadd Hfresh.
  destruct (removeHook_after_addHook _ _ _ (key_of name fn) _ _ Hadd)
    as (st1 & Hthis1 & Hrem).
  apply addHook_inv in Hadd as (st & Hst & Hr & Hg & Hall & Heq).
  destruct this as [o p]. cbn in Hst. subst o.
  unfold set_options_hooks in Heq. cbn [sequelize] in *.
  assert (st1 = push_each (new_entry name fn) (aliasOf T ++ [T]) st) as ->
    by congruence.
  clear Heq. subst this1.
  eexists. split; [exact Hrem|]. split; [reflexivity|].
  assert (∀ X, X ∈ aliasOf T ++ [T] →
    List.filter (keep (key_of name fn)) (stored st X ++ [new_entry name fn])
    = stored st X) as Hback.
  { intros X HX. rewrite List.filter_app. cbn [List.filter].
    rewrite keep_matches, matches_key_of. cbn [negb]. rewrite app_nil_r.
    apply filter_all_kept. intros e He. rewrite keep_matches.
    rewrite (Hfresh X e); [reflexivity| |].
    - by apply elem_of_proxied.
    - by rewrite own_list_stored. }
  split.
  - intros X. rewrite !own_list_stored, stored_filter_each.
    rewrite (stored_push_each _ _ _ _ (aliasOf_NoDup T)).
    case_bool_decide as HX; [|by rewrite app_nil_r].
    by apply Hback.
  - intros X. rewrite getHooks_lookup, lookup_filter_each.
    rewrite (lookup_push_each _ _ _ _ (aliasOf_NoDup T)).
    case_bool_decide as HX; [|by rewrite getHooks_lookup].
    cbn [fmap option_fmap option_map]. rewrite (Hback _ HX).
    symmetry. apply getHooks_array. by apply Hall.
Qed.

(** ** Dispatch *)

Lemma run_resolved_unwrap {Value W}
    (behaviour : fn_ref -> hooked -> list Value -> W -> result Value * W)
    (await : Value -> W -> result Value * W) this hookArgs sync_mode
    (hooks hooks' : list entry) (w : world) :
  map unwrap hooks = map unwrap hooks' →
  run_resolved behaviour await sync_mode this (map Entry hooks) hookArgs w
  = run_resolved behaviour await sync_mode this (map Entry hooks') hookArgs w.
Proof.
  revert hooks' w. induction hooks as [|h hs IH]; intros [|h' hs'] w H;
    try discriminate H; [reflexivity|].
  cbn [map] in H. assert (unwrap h = unwrap h') as Hh by congruence.
  assert (map unwrap hs = map unwrap hs') as Hhs by congruence. clear H.
  assert (element_step behaviour await this hookArgs sync_mode (Entry h) w
          = element_step behaviour await this hookArgs sync_mode (Entry h') w)
    as Hstep.
  { unfold element_step, call_hook. by rewrite Hh. }
  cbn [map].
  destruct (element_step behaviour await this hookArgs sync_mode (Entry h) w)
    as [[[]|e] w1] eqn:E; symmetry in Hstep.
  - rewrite (run_resolved_cons_ok _ _ _ _ _ _ _ _ _ E),
      (run_resolved_cons_ok _ _ _ _ _ _ _ _ _ Hstep). by apply IH.
  - by rewrite (run_resolved_cons_fail _ _ _ _ _ _ _ _ _ _ E),
      (run_resolved_cons_fail _ _ _ _ _ _ _ _ _ _ Hstep).
Qed.


Lemma store_closed_unknown this T :
  store_closed this → hookTypes !! T = None → Object_prototype !! T = None →
  getHooks this T = Array [].
Proof.
  intros (st & Hst & Hclosed) Hnone Hplain. destruct this as [o p].
  cbn in Hst. subst o. rewrite getHooks_lookup, Hplain.
  destruct (st !! T) as [l|] eqn:Hl; [|reflexivity].
  destruct (Hclosed T) as [[d Hd] _]; [rewrite Hl; eauto|]. congruence.
Qed.


(** X10.  Dispatch looks at the function of an entry only: two explicit
    lists whose entries wrap the same functions in the same order are run
    alike, whatever names the entries carry. *)
Theorem runHooks_ignores_entry_names {Value W}
    (behaviour : fn_ref -> hooked -> list Value -> W -> result Value * W)
    (await : Value -> W -> result Value * W)
    (hooks hooks' : list entry) (hookArgs : list Value) (this : hooked)
    (w : world) :
  map unwrap hooks = map unwrap hooks' →
  runHooks behaviour await (HookList hooks) hookArgs this w
  = runHooks behaviour await (HookList hooks') hookArgs this w.
Proof.
  intros H. rewrite !runHooks_unfold by reflexivity. cbn [resolve hookType_of].
  by apply run_resolved_unwrap.
Qed.


(** X12.  On hosts the API has built, dispatching a non-empty name that is
    neither in the catalog nor that of a member of [Object.prototype]
    calls nothing and hands back a promise fulfilled with [undefined]: such
    a name has no list, here or in the parent, and is never synchronous. *)
Theorem runHooks_unknown_type_on_built_hosts {Value W}
    (behaviour : fn_ref -> hooked -> list Value -> W -> result Value * W)
    (await : Value -> W -> result Value * W)
    (T : string) (hookArgs : list Value) (this : hooked) (w : world) :
  api_built this →
  (∀ parent, sequelize this = Some parent → api_built parent) →
  hookTypes !! T = None →
  Object_prototype !! T = None →
  T ≠ "" →
  runHooks behaviour await (HookType T) hookArgs this w
  = (Ok (Promise (Fulfilled tt)), w).
Proof.
  intros Hb Hp Hnone Hplain Hne.
  assert (falsy (HookType T) = false) as Hf.
  { cbn. by apply bool_decide_eq_false_2. }
  rewrite (runHooks_unfold _ _ _ _ _ _ Hf). cbn [resolve hookType_of].
  rewrite (is_sync_not_own _ Hnone).
  rewrite (store_closed_unknown _ _ (api_built_closed _ Hb) Hnone Hplain).
  destruct (sequelize this) as [parent|] eqn:Hs.
  - rewrite (store_closed_unknown _ _ (api_built_closed _ (Hp _ eq_refl))
               Hnone Hplain).
    apply (run_resolved_nil behaviour await this hookArgs false w).
  - apply (run_resolved_nil behaviour await this hookArgs false w).
Qed.

(** X13.  On a host whose store is set, [removeHook] returns exactly when
    [hasHook] is falsy for the type, or the name is found in the catalog
    object and the store has a list of its own for the type and for each
    of its proxies; otherwise it throws. *)
Theorem removeHook_returns_iff T key this st :
  options_hooks this = Some st →
  ((removeHook T key this).1 = Ok tt ↔
   (∃ v, hasHook T this = (Ok v, this) ∧ truthy v = false) ∨
   (getProxiedHooks T = Ok (aliasOf T ++ [T]) ∧
    ∀ X, X ∈ T :: aliasOf T → is_Some (st !! X))).
Proof.
  intros Hst. destruct this as [o p]. cbn in Hst. subst o. split.
  - intros H. destruct (truthy (hasHook_of st T)) eqn:Ht.
    + right. destruct (removeHook T key (Hooked (Some st) p)) as [r this'] eqn:E.
      cbn [fst] in H. subst r.
      apply removeHook_inv_truthy in E as (Hg & _ & Hall); [|exact Ht].
      split; [exact Hg|]. intros X HX. by apply Hall, elem_of_proxied.
    + left. exists (hasHook_of st T). by rewrite hasHook_unfold.
  - intros [(v & Hv & Hfalse)|[Hg Hall]].
    + rewrite hasHook_unfold in Hv. assert (hasHook_of st T = v) as Heq by congruence.
      subst v. by rewrite (removeHook_noop _ _ _ _ Hfalse).
    + rewrite removeHook_unfold. destruct (negb _); [reflexivity|].
      rewrite Hg, forEach_filter_hooks_ok; [reflexivity|].
      intros t Ht. by apply Hall, elem_of_proxied.
Qed.

(** ** The further properties at concrete hosts and hooks *)

Local Transparent hookTypes Object_prototype.

Lemma addHook_appends_to_type_and_proxies_witness :
  sequelize (addHook "afterSave" (Some "log") 4 demo_model).2
  = sequelize demo_model ∧
  (∀ X, own_list (addHook "afterSave" (Some "log") 4 demo_model).2 X
        = own_list demo_model X
          ++ (if bool_decide (X ∈ "afterSave" :: aliasOf "afterSave")
              then [new_entry (Some "log") 4] else [])) ∧
  (∀ X, getHooks (addHook "afterSave" (Some "log") 4 demo_model).2 X
        = if bool_decide (X ∈ "afterSave" :: aliasOf "afterSave")
          then Array (own_list demo_model X ++ [new_entry (Some "log") 4])
          else getHooks demo_model X).
Proof.
  apply (addHook_appends_to_type_and_proxies "afterSave" (Some "log") 4 demo_model).
  vm_compute; reflexivity.
Defined.

Lemma addHook_then_hasHook_witness :
  hasHook "afterUpdate" (addHook "afterSave" None 4 demo_model).2
  = (Ok (Some true), (addHook "afterSave" None 4 demo_model).2).
Proof.
  apply (addHook_then_hasHook "afterSave" None 4 demo_model
           (addHook "afterSave" None 4 demo_model).2 "afterUpdate").
  - vm_compute; reflexivity.
  - apply (bool_decide_unpack _). vm_compute. exact I.
Defined.

Lemma removeHook_without_hooks_is_noop_witness :
  removeHook "beforeSave" (ByReference 1)
    (Hooked (Some {[ "beforeUpdate" := [Bare 1] ]}) None)
  = (Ok tt, Hooked (Some {[ "beforeUpdate" := [Bare 1] ]}) None).
Proof.
  apply (removeHook_without_hooks_is_noop "beforeSave" (ByReference 1)
           (Hooked (Some {[ "beforeUpdate" := [Bare 1] ]}) None)
           {[ "beforeUpdate" := [Bare 1] ]}).
  - reflexivity.
  - vm_compute; reflexivity.
Defined.

Lemma removeHook_removes_every_match_witness :
  own_list
    (removeHook "afterSave" (ByReference 1)
       ((addHook "afterSave" None 1 ;;; addHook "afterSave" (Some "n") 2 ;;;
         addHook "afterSave" None 1) demo_model).2).2 "afterUpdate"
  = if bool_decide ("afterUpdate" ∈ "afterSave" :: aliasOf "afterSave")
    then List.filter (fun e => negb (matches (ByReference 1) e))
           (own_list
              ((addHook "afterSave" None 1 ;;; addHook "afterSave" (Some "n") 2 ;;;
                addHook "afterSave" None 1) demo_model).2 "afterUpdate")
    else own_list
           ((addHook "afterSave" None 1 ;;; addHook "afterSave" (Some "n") 2 ;;;
             addHook "afterSave" None 1) demo_model).2 "afterUpdate".
Proof.
  apply (proj1 (proj2 (removeHook_removes_every_match "afterSave" (ByReference 1)
           ((addHook "afterSave" None 1 ;;; addHook "afterSave" (Some "n") 2 ;;;
             addHook "afterSave" None 1) demo_model).2
           (removeHook "afterSave" (ByReference 1)
              ((addHook "afterSave" None 1 ;;; addHook "afterSave" (Some "n") 2 ;;;
                addHook "afterSave" None 1) demo_model).2).2
           ltac:(vm_compute; reflexivity) ltac:(vm_compute; discriminate)))
         "afterUpdate").
Defined.

Lemma removeHook_twice_witness :
  removeHook "afterSave" (ByName "n")
    (removeHook "afterSave" (ByName "n")
       ((addHook "afterSave" None 1 ;;; addHook "afterSave" (Some "n") 2)
          demo_model).2).2
  = (Ok tt,
     (removeHook "afterSave" (ByName "n")
        ((addHook "afterSave" None 1 ;;; addHook "afterSave" (Some "n") 2)
           demo_model).2).2).
Proof.
  apply (removeHook_twice "afterSave" (ByName "n")
           ((addHook "afterSave" None 1 ;;; addHook "afterSave" (Some "n") 2)
              demo_model).2).
  vm_compute; reflexivity.
Defined.

Lemma api_built_calls_return_witness :
  (∃ v, hasHook "hasOwnProperty"
          (addHook "beforeSave" None 1 (_setupHooks None demo_model).2).2
        = (Ok v, (addHook "beforeSave" None 1 (_setupHooks None demo_model).2).2)) ∧
  (∀ key,
     (removeHook "hasOwnProperty" key
        (addHook "beforeSave" None 1 (_setupHooks None demo_model).2).2).1
     = Ok tt ↔
     ¬ ∃ fn n,
         Object_prototype !! "hasOwnProperty" = Some (BuiltinFunction fn (S n))) ∧
  (∀ name fn,
     (addHook "hasOwnProperty" name fn
        (addHook "beforeSave" None 1 (_setupHooks None demo_model).2).2).1
     = Ok tt ↔
     is_Some (hookTypes !! "hasOwnProperty") ∧
     restricted_here "hasOwnProperty"
       (addHook "beforeSave" None 1 (_setupHooks None demo_model).2).2 = false).
Proof.
  apply (api_built_calls_return
           (addHook "beforeSave" None 1 (_setupHooks None demo_model).2).2
           (api_addHook "beforeSave" None 1 (_setupHooks None demo_model).2
              (api_setupHooks None demo_model))
           "hasOwnProperty").
Defined.

Lemma addHook_then_removeHook_restores_lists_witness :
  ∃ this2,
    removeHook "beforeSave" (key_of (Some "audit") 2)
      (addHook "beforeSave" (Some "audit") 2 demo_model).2 = (Ok tt, this2) ∧
    sequelize this2 = sequelize demo_model ∧
    (∀ X, own_list this2 X = own_list demo_model X) ∧
    (∀ X, getHooks this2 X = getHooks demo_model X).
Proof.
  apply (addHook_then_removeHook_restores_lists "beforeSave" (Some "audit") 2
           demo_model (addHook "beforeSave" (Some "audit") 2 demo_model).2).
  - vm_compute; reflexivity.
  - intros X e _ He. unfold demo_model in He.
    rewrite own_list_empty_store in He. apply elem_of_nil in He. destruct He.
Defined.

Lemma runHooks_ignores_entry_names_witness :
  runHooks demo_behaviour demo_await (HookList [Named "first" 1; Bare 2])
    demo_args demo_model (World 0 [])
  = runHooks demo_behaviour demo_await (HookList [Bare 1; Named "second" 2])
      demo_args demo_model (World 0 []).
Proof.
  apply (runHooks_ignores_entry_names demo_behaviour demo_await
           [Named "first" 1; Bare 2] [Bare 1; Named "second" 2]
           demo_args demo_model (World 0 [])).
  reflexivity.
Defined.


Lemma runHooks_unknown_type_on_built_hosts_witness :
  runHooks demo_behaviour demo_await (HookType "myCustomHook") demo_args
    (addHook "afterFind" None 1 (_setupHooks None demo_model).2).2 (World 0 [])
  = (Ok (Promise (Fulfilled tt)), World 0 []).
Proof.
  apply (runHooks_unknown_type_on_built_hosts demo_behaviour demo_await
           "myCustomHook" demo_args
           (addHook "afterFind" None 1 (_setupHooks None demo_model).2).2
           (World 0 [])).
  - apply api_addHook. apply api_setupHooks.
  - intros parent H.
    assert (parent = (_setupHooks None demo_sequelize).2) as ->.
    { vm_compute in H. vm_compute. congruence. }
    apply api_setupHooks.
  - vm_compute; reflexivity.
  - vm_compute; reflexivity.
  - discriminate.
Defined.

Lemma removeHook_returns_iff_witness :
  (removeHook "beforeSave" (ByReference 1)
     (Hooked (Some {[ "beforeSave" := [Bare 1] ]}) None)).1 = Ok tt ↔
  (∃ v, hasHook "beforeSave" (Hooked (Some {[ "beforeSave" := [Bare 1] ]}) None)
        = (Ok v, Hooked (Some {[ "beforeSave" := [Bare 1] ]}) None) ∧
        truthy v = false) ∨
  (getProxiedHooks "beforeSave" = Ok (aliasOf "beforeSave" ++ ["beforeSave"]) ∧
   ∀ X, X ∈ "beforeSave" :: aliasOf "beforeSave" →
        is_Some (({[ "beforeSave" := [Bare 1] ]} : gmap string (list entry)) !! X)).
Proof.
  apply (removeHook_returns_iff "beforeSave" (ByReference 1)
           (Hooked (Some {[ "beforeSave" := [Bare 1] ]}) None)
           {[ "beforeSave" := [Bare 1] ]}).
  reflexivity.
Defined.

(** A list for a type without the lists of its proxies, as only a store
    written by hand can hold, makes [removeHook] throw; so does, on any
    store the API builds, the name of an inherited function that takes
    parameters. *)
Example removeHook_missing_proxy_list_throws :
  removeHook "beforeSave" (ByReference 1)
    (Hooked (Some {[ "beforeSave" := [Bare 1] ]}) None)
  = (Throw TypeError, Hooked (Some {[ "beforeSave" := [Bare 1] ]}) None) ∧
  removeHook "hasOwnProperty" (ByReference 1) (_setupHooks None demo_sequelize).2
  = (Throw TypeError, (_setupHooks None demo_sequelize).2).
Proof. vm_compute. split; reflexivity. Qed.
